(** * bettergit: the git poller (src/bettergit/git_poller.py)

    A shallow embedding of [GitPoller]: the five facet collectors as
    functions of what the git commands print and what the [.git]
    directory holds, and the poller itself (its debounced background
    fetch and the publication of a snapshot) as a transition system
    whose events are the points where the event loop runs a piece of
    the poller's code. *)

From Stdlib Require Import ZArith NArith List String Ascii Lia Bool.
From Stdlib Require Import Decimal DecimalString DecimalPos DecimalN.
From stdpp Require Import base option list gmap strings.

Local Open Scope N_scope.

(** ** Python values used by the poller *)

(** A Python [str] is a sequence of Unicode code points. *)
Abbreviation str := (list N).

(** An ASCII literal of the source as a [str]. *)
Definition lit (s : string) : str :=
  map N_of_ascii (list_ascii_of_string s).

Definition chr (a : ascii) : N := N_of_ascii a.

(** The exceptions the code can meet.  [Exception_] is the bare
    [Exception(msg)] the collectors raise themselves; [Foreign] stands
    for what only the surroundings can raise (a command that cannot be
    spawned, output that does not decode, a failing callback). *)
Inductive exn : Type :=
| ValueError
| IndexError
| FileNotFoundError
| IsADirectoryError
| Exception_ (msg : str)
| Foreign (name : string).

Inductive result (A : Type) : Type :=
| Ok (a : A)
| Raise (e : exn).
Arguments Ok {A} a.
Arguments Raise {A} e.

#[global] Instance result_ret : MRet result := fun _ a => Ok a.

#[global] Instance result_bind : MBind result := fun _ _ k r =>
  match r with
  | Ok a => k a
  | Raise e => Raise e
  end.

Definition is_ok {A : Type} (r : result A) : bool :=
  match r with Ok _ => true | Raise _ => false end.

(** ** The text operations of the Python runtime *)

Module PyStr.

(** [str.splitlines] breaks at these code points (and takes CR LF as
    one break). *)
Definition is_linebreak (c : N) : bool :=
  ((0x0A <=? c) && (c <=? 0x0D)) || ((0x1C <=? c) && (c <=? 0x1E))
  || (c =? 0x85) || (c =? 0x2028) || (c =? 0x2029).

(** White space for [str.strip] and [str.split]. *)
Definition is_space (c : N) : bool :=
  ((0x09 <=? c) && (c <=? 0x0D)) || ((0x1C <=? c) && (c <=? 0x20))
  || (c =? 0x85) || (c =? 0xA0) || (c =? 0x1680)
  || ((0x2000 <=? c) && (c <=? 0x200A))
  || (c =? 0x2028) || (c =? 0x2029) || (c =? 0x202F) || (c =? 0x205F)
  || (c =? 0x3000).

(** [cur] holds the characters of the line being read, last one first. *)
Fixpoint splitlines_from (cur : str) (s : str) : list str :=
  match s with
  | [] => match cur with [] => [] | _ => [rev cur] end
  | c :: rest =>
      if is_linebreak c then
        rev cur ::
          match rest with
          | d :: rest' =>
              if (c =? 0x0D) && (d =? 0x0A) then splitlines_from [] rest'
              else splitlines_from [] rest
          | [] => []
          end
      else splitlines_from (c :: cur) rest
  end.

Definition splitlines (s : str) : list str := splitlines_from [] s.

Fixpoint lstrip (s : str) : str :=
  match s with
  | [] => []
  | c :: rest => if is_space c then lstrip rest else s
  end.

Definition rstrip (s : str) : str := rev (lstrip (rev s)).

Definition strip (s : str) : str := rstrip (lstrip s).

(** [str.split()] without arguments: the maximal runs of characters that
    are not white space. *)
Fixpoint split_from (cur : str) (s : str) : list str :=
  match s with
  | [] => match cur with [] => [] | _ => [rev cur] end
  | c :: rest =>
      if is_space c then
        match cur with
        | [] => split_from [] rest
        | _ => rev cur :: split_from [] rest
        end
      else split_from (c :: cur) rest
  end.

Definition split (s : str) : list str := split_from [] s.

End PyStr.

(** What the interpreter supplies to [int]: the decimal value of a code
    point outside ASCII (the Unicode database's decimal-digit property),
    and the bound on the number of digits of a numeral that [int] takes
    (sys.get_int_max_str_digits(), where 0 is no bound). *)
Class PyRuntime : Type := {
  unicode_decimal : N -> option N;
  int_max_str_digits : nat
}.

Module PyInt.
Section WithRuntime.
Context `{PyRuntime}.

(** [int] first brings its argument to ASCII: white space becomes a
    blank, a decimal digit of any script its ASCII digit, anything else
    outside ASCII a question mark. *)
Definition to_ascii_decimal (c : N) : N :=
  if c <? 128 then c
  else if PyStr.is_space c then 0x20
  else match unicode_decimal c with
       | Some d => 0x30 + d
       | None => 0x3F
       end.

(** The blanks the numeral reader skips at both ends. *)
Definition is_c_space (c : N) : bool :=
  ((0x09 <=? c) && (c <=? 0x0D)) || (c =? 0x20).

Fixpoint skip_spaces (s : str) : str :=
  match s with
  | [] => []
  | c :: rest => if is_c_space c then skip_spaces rest else s
  end.

Definition digit_value (c : N) : option N :=
  if (0x30 <=? c) && (c <=? 0x39) then Some (c - 0x30) else None.

(** Digits with single underscores between them: the value read so far,
    the number of digits read, whether the last character was an
    underscore.  Returns the value, the digit count and the rest. *)
Fixpoint scan_digits (acc : N) (n : nat) (prev_us : bool) (s : str)
  : option (N * nat * str) :=
  match s with
  | [] => if prev_us then None else Some (acc, n, [])
  | c :: rest =>
      match digit_value c with
      | Some d => scan_digits (10 * acc + d) (S n) false rest
      | None =>
          if c =? 0x5F then
            if prev_us then None else scan_digits acc n true rest
          else if prev_us then None else Some (acc, n, s)
      end
  end.

Definition too_many_digits (n : nat) : bool :=
  (0 <? int_max_str_digits)%nat && (int_max_str_digits <? n)%nat.

(** [int(s)] in base ten. *)
Definition int (s : str) : result Z :=
  let a := skip_spaces (map to_ascii_decimal s) in
  let '(negative, a) :=
    match a with
    | c :: rest =>
        if c =? 0x2B then (false, rest)
        else if c =? 0x2D then (true, rest)
        else (false, a)
    | [] => (false, a)
    end in
  match a with
  | [] => Raise ValueError
  | c :: _ =>
      if c =? 0x5F then Raise ValueError
      else
        match scan_digits 0 0 false a with
        | None => Raise ValueError
        | Some (v, n, rest) =>
            match n with
            | O => Raise ValueError
            | _ =>
                if too_many_digits n then Raise ValueError
                else
                  match skip_spaces rest with
                  | [] => Ok (if negative then (- Z.of_N v)%Z else Z.of_N v)
                  | _ => Raise ValueError
                  end
            end
        end
  end.

End WithRuntime.
End PyInt.

Local Close Scope N_scope.

(** ** What a poll cycle sees of the outside *)

(** A path is the text pathlib prints for it, which tells paths apart
    as pathlib's equality does: [Path("/r/")] and [Path("/r")] are the
    one path [/r]. *)
Abbreviation Path := string.

(** pathlib on POSIX: how a text is read as a path, and how a name is
    joined to a path. *)
Module PurePath.

Definition is_sep (c : ascii) : bool := Ascii.eqb c "/".

(** [s.split("/")], with [cur] the component being read. *)
Fixpoint split_sep (cur : string) (s : string) : list string :=
  match s with
  | EmptyString => [cur]
  | String c rest =>
      if is_sep c then cur :: split_sep EmptyString rest
      else split_sep (cur +:+ String c EmptyString) rest
  end.

(** posixpath.splitroot: the root is one slash, or two when the text
    begins with exactly two. *)
Definition splitroot (s : string) : string * string :=
  match s with
  | String c1 rest1 =>
      if is_sep c1 then
        match rest1 with
        | String c2 rest2 =>
            if is_sep c2 then
              match rest2 with
              | String c3 _ =>
                  if is_sep c3 then ("/", rest1) else ("//", rest2)
              | EmptyString => ("//", rest2)
              end
            else ("/", rest1)
        | EmptyString => ("/", rest1)
        end
      else (EmptyString, s)
  | EmptyString => (EmptyString, s)
  end%string.

(** The components kept: not the empty ones, not the dots. *)
Definition parts (rel : string) : list string :=
  filter (fun x => x ≠ EmptyString ∧ x ≠ "."%string) (split_sep EmptyString rel).

Fixpoint join_sep (xs : list string) : string :=
  match xs with
  | [] => EmptyString
  | [x] => x
  | x :: rest => (x +:+ "/" +:+ join_sep rest)%string
  end.

(** [Path(s)], as its text. *)
Definition of_text (s : string) : Path :=
  let '(root, rel) := splitroot s in
  let t := (root +:+ join_sep (parts rel))%string in
  if bool_decide (t = EmptyString) then "."%string else t.

Fixpoint ends_with_sep (s : string) : bool :=
  match s with
  | EmptyString => false
  | String c EmptyString => is_sep c
  | String _ rest => ends_with_sep rest
  end.

Definition starts_with_sep (s : string) : bool :=
  match s with
  | String c _ => is_sep c
  | EmptyString => false
  end.

(** posixpath.join of two texts. *)
Definition os_join (a b : string) : string :=
  if starts_with_sep b then b
  else if bool_decide (a = EmptyString) || ends_with_sep a then (a +:+ b)%string
  else (a +:+ "/" +:+ b)%string.

End PurePath.

(** [p / name] *)
Definition path_join (p : Path) (name : string) : Path :=
  PurePath.of_text (PurePath.os_join p name).

Inductive fs_node : Type :=
| Dir
| File (text : str).

(** [run cwd args] is what [_run_command] returns for git with these
    arguments in this directory: the exit code and the decoded standard
    output, or the exception of a command that could not be run. *)
Record world : Type := {
  run : option Path -> list string -> result (Z * str);
  files : gmap Path fs_node;
  clock : Z
}.

Definition exists_ (fs : gmap Path fs_node) (p : Path) : bool :=
  match fs !! p with
  | Some _ => true
  | None => false
  end.

Definition is_dir (fs : gmap Path fs_node) (p : Path) : bool :=
  match fs !! p with
  | Some Dir => true
  | _ => false
  end.

(** Reading a text file line by line: a line ends at LF, CR LF or CR,
    and the reader hands it over ending in LF. *)
Fixpoint first_line (text : str) : str :=
  match text with
  | [] => []
  | c :: rest =>
      if ((c =? 0x0A) || (c =? 0x0D))%N then [0x0A%N] else c :: first_line rest
  end.

Definition readline (text : str) : option str :=
  match text with
  | [] => None
  | _ => Some (first_line text)
  end.

(** ** The facet collectors *)

Record repo_counts : Type := {
  dirty : bool;
  untracked : nat;
  modified : nat;
  staged : nat;
  deleted : nat
}.

Record repo_state : Type := {
  state : option string;
  step : option Z;
  total : option Z
}.

Section Collectors.
Context `{PyRuntime}.
Variable w : world.
Variable repo_root : option Path.

Definition _run_git_command (args : list string) : result (Z * str) :=
  run w repo_root args.

Definition _read_first_line_int (f : Path) : result (option Z) :=
  match files w !! f with
  | None => Raise FileNotFoundError
  | Some Dir => Raise IsADirectoryError
  | Some (File text) =>
      match readline text with
      | None => Ok None
      | Some line => n ← PyInt.int (PyStr.strip line); Ok (Some n)
      end
  end.

(** One turn of the loop over the lines of the status listing. *)
Definition count_line (c : repo_counts) (line : str) : result repo_counts :=
  let status := take 2 line in
  let bump (u m s d : nat) :=
    Ok {| dirty := true;
          untracked := untracked c + u; modified := modified c + m;
          staged := staged c + s; deleted := deleted c + d |} in
  if bool_decide (status = lit "??") then bump 1 0 0 0
  else if bool_decide (status = lit "AM") then bump 0 1 1 0
  else if bool_decide (status = lit " M") then bump 0 1 0 0
  else if bool_decide (status = lit " D") then bump 0 0 0 1
  else
    match status with
    | [] => Raise IndexError
    | c0 :: _ =>
        if (c0 =? chr "A")%N then bump 0 0 1 0
        else if (c0 =? chr "M")%N then bump 0 0 1 0
        else if (c0 =? chr "D")%N then bump 0 0 1 0
        else bump 0 0 0 0
    end.

Fixpoint count_lines (c : repo_counts) (lines : list str) : result repo_counts :=
  match lines with
  | [] => Ok c
  | line :: rest => c' ← count_line c line; count_lines c' rest
  end.

Definition no_counts : repo_counts :=
  {| dirty := false; untracked := 0; modified := 0; staged := 0; deleted := 0 |}.

Definition add_counts (c d : repo_counts) : repo_counts :=
  {| dirty := dirty c || dirty d;
     untracked := untracked c + untracked d;
     modified := modified c + modified d;
     staged := staged c + staged d;
     deleted := deleted c + deleted d |}.

Definition collect_repo_counts : result repo_counts :=
  '(rc, stdout) ← _run_git_command
     ["status"; "--porcelain"; "--ignore-submodules"; "-unormal"]%string;
  if negb (rc =? 0)%Z then Raise (Exception_ (lit "git status failed: " ++ stdout))
  else count_lines no_counts (PyStr.splitlines stdout).

Definition collect_current_branch : result str :=
  '(rc, stdout) ← _run_git_command ["branch"; "--show-current"]%string;
  if (rc =? 0)%Z && negb (bool_decide (stdout = [])) then Ok (PyStr.strip stdout)
  else
    '(rc, stdout) ← _run_git_command ["rev-parse"; "--short"; "HEAD"]%string;
    if (rc =? 0)%Z then Ok (lit "[" ++ PyStr.strip stdout ++ lit "]")
    else Raise (Exception_ (lit "git branch failed: " ++ stdout)).

Definition collect_stashes : result nat :=
  '(rc, stdout) ← _run_git_command ["stash"; "list"]%string;
  if negb (rc =? 0)%Z then Raise (Exception_ (lit "git stash failed: " ++ stdout))
  else Ok (length (PyStr.splitlines stdout)).

(** [push_count, pull_count = map(int, stdout.split())]: the numbers are
    read one after the other, and there must be two of them. *)
Definition collect_counts : result (Z * Z) :=
  '(rc, stdout) ← _run_git_command
     ["rev-list"; "--left-right"; "--count"; "HEAD...@{u}"]%string;
  if (rc =? 0)%Z then
    match PyStr.split stdout with
    | [] => Raise ValueError
    | a :: rest =>
        push_count ← PyInt.int a;
        match rest with
        | [] => Raise ValueError
        | b :: rest' =>
            pull_count ← PyInt.int b;
            match rest' with
            | [] => Ok (push_count, pull_count)
            | c :: _ => _ ← PyInt.int c; Raise ValueError
            end
        end
    end
  else Ok (0, 0)%Z.

Definition collect_repo_state (root : Path) : result repo_state :=
  let git_dir := path_join root ".git" in
  let rebase_dir := path_join git_dir "rebase-merge" in
  if is_dir (files w) rebase_dir then
    let state :=
      if exists_ (files w) (path_join rebase_dir "interactive")
      then "REBASE-i"%string else "REBASE-m"%string in
    step ← _read_first_line_int (path_join rebase_dir "msgnum");
    total ← _read_first_line_int (path_join rebase_dir "end");
    Ok {| state := Some state; step := step; total := total |}
  else
    let rebase_dir := path_join git_dir "rebase-apply" in
    if is_dir (files w) rebase_dir then
      step ← _read_first_line_int (path_join rebase_dir "next");
      total ← _read_first_line_int (path_join rebase_dir "last");
      let state :=
        if exists_ (files w) (path_join rebase_dir "rebasing") then "REBASE"%string
        else if exists_ (files w) (path_join rebase_dir "applying") then "AM"%string
        else "AM/REBASE"%string in
      Ok {| state := Some state; step := step; total := total |}
    else
      let state :=
        if exists_ (files w) (path_join git_dir "MERGE_HEAD") then Some "MERGING"%string
        else if exists_ (files w) (path_join git_dir "CHERRY_PICK_HEAD")
             then Some "CHERRY-PICKING"%string
        else if exists_ (files w) (path_join git_dir "REVERT_HEAD")
             then Some "REVERTING"%string
        else if exists_ (files w) (path_join git_dir "BISECT_LOG")
             then Some "BISECTING"%string
        else None in
      Ok {| state := state; step := None; total := None |}.

End Collectors.

(** ** The published record *)

Module RepoStatus.
Record t : Type := {
  dirty : bool;
  untracked : nat;
  modified : nat;
  staged : nat;
  deleted : nat;
  current_branch : str;
  stashes : nat;
  push_count : Z;
  pull_count : Z;
  state : option string;
  step : option Z;
  total : option Z
}.
End RepoStatus.

(** ** The poller and the registry of last polls *)

Definition POLLING_INTERVAL : Z := 10.

(** The background task running [_do_fetch], by the await it is
    suspended at; [cur_root] is the root it read when it began. *)
Inductive fetch_stage : Type :=
| Created
| Fetching (cur_root : option Path)
| Triggering.

Inductive future : Type :=
| Running (st : fetch_stage)
| Done (r : result unit).

(** The attributes of the poller, the module's [last_poll], and three
    records kept for the statements only: the session identifiers the
    update trigger was called with, and how many fetch tasks were
    created and how many were reaped. *)
Record process : Type := {
  repo_root : option Path;
  session_id : string;
  update_trigger : bool;
  repo_status : option RepoStatus.t;
  fetch_future : option future;
  last_poll : gmap (option Path) Z;
  triggered : list string;
  started : nat;
  reaped : nat
}.

Definition init (session_id : string) (update_trigger : bool)
    (last_poll : gmap (option Path) Z) : process :=
  {| repo_root := None; session_id := session_id;
     update_trigger := update_trigger; repo_status := None;
     fetch_future := None; last_poll := last_poll;
     triggered := []; started := 0; reaped := 0 |}.

Definition set_repo_root (v : option Path) (p : process) : process :=
  {| repo_root := v; session_id := session_id p;
     update_trigger := update_trigger p; repo_status := repo_status p;
     fetch_future := fetch_future p; last_poll := last_poll p;
     triggered := triggered p; started := started p; reaped := reaped p |}.

Definition set_repo_status (v : option RepoStatus.t) (p : process) : process :=
  {| repo_root := repo_root p; session_id := session_id p;
     update_trigger := update_trigger p; repo_status := v;
     fetch_future := fetch_future p; last_poll := last_poll p;
     triggered := triggered p; started := started p; reaped := reaped p |}.

Definition set_fetch_future (v : option future) (p : process) : process :=
  {| repo_root := repo_root p; session_id := session_id p;
     update_trigger := update_trigger p; repo_status := repo_status p;
     fetch_future := v; last_poll := last_poll p;
     triggered := triggered p; started := started p; reaped := reaped p |}.

Definition set_last_poll (v : gmap (option Path) Z) (p : process) : process :=
  {| repo_root := repo_root p; session_id := session_id p;
     update_trigger := update_trigger p; repo_status := repo_status p;
     fetch_future := fetch_future p; last_poll := v;
     triggered := triggered p; started := started p; reaped := reaped p |}.

Definition note_triggered (sid : string) (p : process) : process :=
  {| repo_root := repo_root p; session_id := session_id p;
     update_trigger := update_trigger p; repo_status := repo_status p;
     fetch_future := fetch_future p; last_poll := last_poll p;
     triggered := triggered p ++ [sid]; started := started p;
     reaped := reaped p |}.

Definition note_started (p : process) : process :=
  {| repo_root := repo_root p; session_id := session_id p;
     update_trigger := update_trigger p; repo_status := repo_status p;
     fetch_future := fetch_future p; last_poll := last_poll p;
     triggered := triggered p; started := S (started p); reaped := reaped p |}.

Definition note_reaped (p : process) : process :=
  {| repo_root := repo_root p; session_id := session_id p;
     update_trigger := update_trigger p; repo_status := repo_status p;
     fetch_future := fetch_future p; last_poll := last_poll p;
     triggered := triggered p; started := started p; reaped := S (reaped p) |}.

(** The setter of [repo_root]: [Path(value) if value else None], for a
    value that is None or a text. *)
Definition root_of_value (value : option string) : option Path :=
  match value with
  | Some v => if bool_decide (v = ""%string) then None
              else Some (PurePath.of_text v)
  | None => None
  end.

Definition repo_root_setter (value : option string) (p : process) : process :=
  set_repo_root (root_of_value value) p.

(** [last_poll.setdefault(k, 0)] *)
Definition setdefault (k : option Path) (d : Z) (m : gmap (option Path) Z)
  : gmap (option Path) Z * Z :=
  match m !! k with
  | Some v => (m, v)
  | None => (<[k := d]> m, d)
  end.

(** The tasks created and not yet reaped are the one in the poller's
    slot, if any. *)
Definition balanced (p : process) : Prop :=
  started p = reaped p + match fetch_future p with Some _ => 1 | None => 0 end.

Section Poller.
Context `{PyRuntime}.

(** [_do_fetch], one piece per await.  It begins when the event loop
    first runs the task, resumes when git fetch has ended, and ends
    when the update trigger has returned. *)
Definition _do_fetch_begin (p : process) : process :=
  match fetch_future p with
  | Some (Running Created) =>
      set_fetch_future (Some (Running (Fetching (repo_root p)))) p
  | _ => p
  end.

Definition _do_fetch_resume (w : world) (p : process) : process :=
  match fetch_future p with
  | Some (Running (Fetching cur_root)) =>
      match run w cur_root ["fetch"; "--quiet"]%string with
      | Raise e => set_fetch_future (Some (Done (Raise e))) p
      | Ok _ =>
          let p := set_last_poll (<[cur_root := clock w]> (last_poll p)) p in
          if bool_decide (repo_root p = cur_root) then
            if update_trigger p then
              set_fetch_future (Some (Running Triggering))
                (note_triggered (session_id p) p)
            else set_fetch_future (Some (Done (Ok tt))) p
          else set_fetch_future (Some (Done (Ok tt))) p
      end
  | _ => p
  end.

Definition _do_fetch_end (r : result unit) (p : process) : process :=
  match fetch_future p with
  | Some (Running Triggering) => set_fetch_future (Some (Done r)) p
  | _ => p
  end.

(** The first part of [collect], up to the creation of the collectors'
    tasks: reap a finished fetch, or see whether one is due.  The clock
    is read in whole ticks, as the annotation of [last_poll] has it. *)
Definition check_fetch (w : world) (root : Path) (p : process)
  : process * result unit :=
  match fetch_future p with
  | Some (Done (Ok _)) =>
      let p := note_reaped (set_fetch_future None p) in
      (set_last_poll (<[Some root := clock w]> (last_poll p)) p, Ok tt)
  | Some (Done (Raise e)) => (p, Raise e)
  | Some (Running _) => (p, Ok tt)
  | None =>
      match run w (Some root) ["remote"; "show"]%string with
      | Raise e => (p, Raise e)
      | Ok (rc, stdout) =>
          if bool_decide (PyStr.strip stdout = []) then (p, Ok tt)
          else
            let '(m, last) := setdefault (Some root) 0 (last_poll p) in
            let p := set_last_poll m p in
            if (last + POLLING_INTERVAL <? clock w)%Z then
              (note_started (set_fetch_future (Some (Running Created)) p), Ok tt)
            else (p, Ok tt)
      end
  end.

(** The five collectors in the order of [collection_methods], joined
    and merged into the record: their keys are disjoint, so the merge
    is the record with each field from its collector.  When several
    fail, asyncio reports the one that failed first in time; here it is
    the first in this order, and nothing below depends on which. *)
Definition gather (w : world) (root : Path) : result RepoStatus.t :=
  '(push_count, pull_count) ← collect_counts w (Some root);
  current_branch ← collect_current_branch w (Some root);
  counts ← collect_repo_counts w (Some root);
  st ← collect_repo_state w root;
  stashes ← collect_stashes w (Some root);
  Ok {| RepoStatus.dirty := dirty counts;
        RepoStatus.untracked := untracked counts;
        RepoStatus.modified := modified counts;
        RepoStatus.staged := staged counts;
        RepoStatus.deleted := deleted counts;
        RepoStatus.current_branch := current_branch;
        RepoStatus.stashes := stashes;
        RepoStatus.push_count := push_count;
        RepoStatus.pull_count := pull_count;
        RepoStatus.state := state st;
        RepoStatus.step := step st;
        RepoStatus.total := total st |}.

Definition collect (w : world) (p : process) : process * result unit :=
  match repo_root p with
  | None => (set_repo_status None p, Ok tt)
  | Some root =>
      match check_fetch w root p with
      | (p, Raise e) => (p, Raise e)
      | (p, Ok _) =>
          match gather w root with
          | Raise e => (p, Raise e)
          | Ok status => (set_repo_status (Some status) p, Ok tt)
          end
      end
  end.

(** What happens to a poller: its root is set from outside, a cycle
    runs, or the event loop runs the next piece of the fetch task.  A
    cycle is one event: the root is not set in the middle of it. *)
Inductive event : Type :=
| SetRepoRoot (value : option string)
| Cycle (w : world)
| FetchBegins
| FetchExits (w : world)
| TriggerReturns (r : result unit).

Definition react (p : process) (e : event) : process :=
  match e with
  | SetRepoRoot value => repo_root_setter value p
  | Cycle w => fst (collect w p)
  | FetchBegins => _do_fetch_begin p
  | FetchExits w => _do_fetch_resume w p
  | TriggerReturns r => _do_fetch_end r p
  end.

Definition run_events (p : process) (es : list event) : process :=
  fold_left react es p.

End Poller.

(** ** The specification's own words *)

Module Spec.

(** The classes a line of the status listing falls in, by its
    two-character code. *)
Inductive status_class : Type :=
| Untracked
| StagedAndModified
| Modified
| Deleted
| Staged
| Unlisted.

#[global] Instance status_class_eq_dec : EqDecision status_class.
Proof. solve_decision. Defined.

Definition first_column_in (cs : list ascii) (line : str) : bool :=
  match line with
  | [] => false
  | c :: _ => bool_decide (c ∈ map chr cs)
  end.

Definition classify (line : str) : status_class :=
  let code := take 2 line in
  if bool_decide (code = lit "??") then Untracked
  else if bool_decide (code = lit "AM") then StagedAndModified
  else if bool_decide (code = lit " M") then Modified
  else if bool_decide (code = lit " D") then Deleted
  else if first_column_in ["A"; "M"; "D"]%char line then Staged
  else Unlisted.

Definition how_many (k : status_class) (lines : list str) : nat :=
  length (filter (fun l => classify l = k) lines).

Definition tally (lines : list str) : repo_counts :=
  {| dirty := match lines with [] => false | _ => true end;
     untracked := how_many Untracked lines;
     modified := how_many StagedAndModified lines + how_many Modified lines;
     staged := how_many StagedAndModified lines + how_many Staged lines;
     deleted := how_many Deleted lines |}.

(** The markers that are told by their existence alone, in the order
    they are looked for. *)
Definition plain_markers : list (string * string) :=
  [("MERGE_HEAD", "MERGING"); ("CHERRY_PICK_HEAD", "CHERRY-PICKING");
   ("REVERT_HEAD", "REVERTING"); ("BISECT_LOG", "BISECTING")]%string.

Definition first_plain_marker (fs : gmap Path fs_node) (git_dir : Path)
  : option string :=
  snd <$> find (fun m => exists_ fs (path_join git_dir (fst m))) plain_markers.

(** A decimal numeral, digit by digit, as git prints a number. *)
Definition numeral (u : Decimal.uint) : str :=
  lit (DecimalString.NilEmpty.string_of_uint u).

Definition blank (s : str) : Prop := Forall (fun c => PyStr.is_space c = true) s.

(** Blanks that do not end a line of a file. *)
Definition padding (s : str) : Prop :=
  Forall (fun c => PyStr.is_space c = true ∧ c ≠ 0x0A%N ∧ c ≠ 0x0D%N) s.

(** The numeral is short enough for [int] to take it. *)
Definition digits_fit `{PyRuntime} (u : Decimal.uint) : Prop :=
  PyInt.too_many_digits (Decimal.nb_digits u) = false.

(** The file at [f] has a numeral on its first line, alone but for
    blanks around it; [n] is the number it denotes. *)
Inductive holds_number `{PyRuntime} (fs : gmap Path fs_node) (f : Path) : Z -> Prop :=
| holds_number_intro (u : Decimal.uint) (pad_l pad_r rest : str) :
    fs !! f = Some (File (pad_l ++ numeral u ++ pad_r ++ rest)) ->
    u <> Decimal.Nil -> digits_fit u ->
    padding pad_l -> padding pad_r ->
    match rest with [] => True | c :: _ => c = 0x0A%N \/ c = 0x0D%N end ->
    holds_number fs f (Z.of_N (N.of_uint u)).

(** The symbolic-branch query gives a name; the hash query gives a hash. *)
Definition gives_name (rc : Z) (stdout : str) : Prop := rc = 0%Z ∧ stdout ≠ [].
Definition gives_hash (rc : Z) : Prop := rc = 0%Z.

End Spec.

(** ** Concrete pollers and worlds *)

Module Examples.

#[export] Instance cpython : PyRuntime :=
  {| unicode_decimal := fun _ => None; int_max_str_digits := 4300 |}.

Definition LF : str := [0x0A%N].

(** A git that answers each command with exit code 0 and a fixed text. *)
Definition git_says (answers : list (list string * (Z * str)))
    (cwd : option Path) (args : list string) : result (Z * str) :=
  match find (fun a => bool_decide (fst a = args)) answers with
  | Some a => Ok (snd a)
  | None => Ok (0%Z, [])
  end.

Definition status_args : list string :=
  ["status"; "--porcelain"; "--ignore-submodules"; "-unormal"]%string.
Definition counts_args : list string :=
  ["rev-list"; "--left-right"; "--count"; "HEAD...@{u}"]%string.

(** The repository of the end-to-end example: two untracked files and
    one added, on main, three commits ahead and one behind, one remote. *)
Definition quiet_world (t : Z) : world :=
  {| run := git_says
       [(status_args, (0%Z, lit "?? a" ++ LF ++ lit "?? b" ++ LF ++ lit "A  c" ++ LF));
        (["branch"; "--show-current"]%string, (0%Z, lit "main" ++ LF));
        (counts_args, (0%Z, lit "3" ++ [0x09%N] ++ lit "1" ++ LF));
        (["remote"; "show"]%string, (0%Z, lit "origin" ++ LF))];
     files := ∅;
     clock := t |}.

(** The same, with another answer to one command. *)
Definition answering (args : list string) (answer : Z * str) (w : world) : world :=
  {| run := fun cwd a => if bool_decide (a = args) then Ok answer else run w cwd a;
     files := files w;
     clock := clock w |}.

Definition with_files (fs : gmap Path fs_node) (w : world) : world :=
  {| run := run w; files := fs; clock := clock w |}.

(** An interactive rebase at step 3 of 10 in /r. *)
Definition rebasing_files : gmap Path fs_node :=
  list_to_map
    [("/r/.git/rebase-merge"%string, Dir);
     ("/r/.git/rebase-merge/interactive"%string, File []);
     ("/r/.git/rebase-merge/msgnum"%string, File (lit "3" ++ LF));
     ("/r/.git/rebase-merge/end"%string, File (lit "10" ++ LF))].

(** A rebase whose msgnum is there but empty. *)
Definition stalled_files : gmap Path fs_node :=
  list_to_map
    [("/r/.git/rebase-merge"%string, Dir);
     ("/r/.git/rebase-merge/msgnum"%string, File []);
     ("/r/.git/rebase-merge/end"%string, File (lit "10" ++ LF))].

(** A rebase directory without msgnum, and one whose msgnum is not a
    number. *)
Definition bare_files : gmap Path fs_node :=
  list_to_map
    [("/r/.git/rebase-merge"%string, Dir);
     ("/r/.git/rebase-merge/end"%string, File (lit "10" ++ LF))].

Definition garbled_files : gmap Path fs_node :=
  list_to_map
    [("/r/.git/rebase-merge"%string, Dir);
     ("/r/.git/rebase-merge/msgnum"%string, File (lit "three" ++ LF));
     ("/r/.git/rebase-merge/end"%string, File (lit "10" ++ LF))].

(** A poller of session s1 with a callback, watching /r. *)
Definition watching (root : Path) (fut : option future) : process :=
  set_fetch_future fut
    (set_repo_root (Some root) (init "s1" true ∅)).

End Examples.

(** ** Listings as git prints them *)

Module Listing.

Definition break_free (s : str) : Prop :=
  Forall (fun c => PyStr.is_linebreak c = false) s.

(** The end of a line: LF, or CR LF. *)
Definition terminator (crlf : bool) : str :=
  if crlf then [0x0D%N; 0x0A%N] else [0x0A%N].

(** The text of a listing: each entry followed by its line end. *)
Definition render (entries : list (str * bool)) : str :=
  flat_map (fun e => e.1 ++ terminator e.2) entries.

(** No white space at either end. *)
Definition trimmed (s : str) : Prop :=
  match s with [] => True | c :: _ => PyStr.is_space c = false end
  ∧ match rev s with [] => True | c :: _ => PyStr.is_space c = false end.

(** The first columns the counts collector knows. *)
Definition known_columns : list N := map chr ["?"; "A"; "M"; "D"; " "]%char.

(** The states with a step and a total, and the others. *)
Definition rebase_states : list string :=
  ["REBASE-i"; "REBASE-m"; "REBASE"; "AM"; "AM/REBASE"]%string.

Definition plain_states : list string :=
  ["MERGING"; "CHERRY-PICKING"; "REVERTING"; "BISECTING"]%string.

End Listing.

(** * Properties *)

(** ** Text *)

Section TextFacts.
Import PyStr.

Lemma splitlines_from_nil cur s :
  splitlines_from cur s = [] ↔ cur = [] ∧ s = [].
Proof.
  revert cur; induction s as [|c rest IH]; intros cur; simpl.
  - destruct cur; split; intros; try tauto; try discriminate.
    destruct H; discriminate.
  - split; [|intros [_ ?]; discriminate].
    destruct (is_linebreak c); [discriminate|].
    intros E. apply IH in E as [? _]. discriminate.
Qed.

Lemma splitlines_nil s : splitlines s = [] ↔ s = [].
Proof. unfold splitlines. rewrite splitlines_from_nil. tauto. Qed.

Lemma lstrip_blank_app pre s :
  Forall (fun c => is_space c = true) pre → lstrip (pre ++ s) = lstrip s.
Proof. induction 1 as [|c pre Hc _ IH]; simpl; [done|]. by rewrite Hc. Qed.

Lemma lstrip_blank s :
  Forall (fun c => is_space c = true) s → lstrip s = [].
Proof. intros Hs. rewrite <- (app_nil_r s). by rewrite lstrip_blank_app. Qed.

Lemma lstrip_solid s :
  Forall (fun c => is_space c = false) s → lstrip s = s.
Proof. destruct 1 as [|c s Hc _]; simpl; [done|]. by rewrite Hc. Qed.

(** Stripping takes the blanks off both ends of a word. *)
Lemma strip_word pre x post :
  Forall (fun c => is_space c = true) pre →
  Forall (fun c => is_space c = true) post →
  Forall (fun c => is_space c = false) x →
  strip (pre ++ x ++ post) = x.
Proof.
  intros Hpre Hpost Hx. unfold strip, rstrip.
  rewrite lstrip_blank_app by done.
  destruct x as [|c x].
  - simpl. rewrite (lstrip_blank post) by done. done.
  - assert (lstrip ((c :: x) ++ post) = (c :: x) ++ post) as ->.
    { apply Forall_cons in Hx as [Hc _]. simpl. by rewrite Hc. }
    rewrite rev_app_distr, lstrip_blank_app.
    + rewrite lstrip_solid; [apply rev_involutive|].
      apply Forall_rev. done.
    + apply Forall_rev. done.
Qed.

Lemma split_from_blank s :
  Forall (fun c => is_space c = true) s → split_from [] s = [].
Proof. induction 1 as [|c s Hc _ IH]; simpl; [done|]. by rewrite Hc. Qed.

Lemma split_from_blank_app pre s :
  Forall (fun c => is_space c = true) pre →
  split_from [] (pre ++ s) = split_from [] s.
Proof. induction 1 as [|c pre Hc _ IH]; simpl; [done|]. by rewrite Hc. Qed.

Lemma split_from_solid_app x cur s :
  Forall (fun c => is_space c = false) x →
  split_from cur (x ++ s) = split_from (rev x ++ cur) s.
Proof.
  intros Hx. revert cur. induction Hx as [|c x Hc _ IH]; intros cur; simpl; [done|].
  rewrite Hc, IH. by rewrite <- app_assoc.
Qed.

(** A word, then blanks: the word is split off. *)
Lemma split_from_word x ws s :
  x ≠ [] →
  Forall (fun c => is_space c = false) x →
  ws ≠ [] →
  Forall (fun c => is_space c = true) ws →
  split_from [] (x ++ ws ++ s) = x :: split_from [] s.
Proof.
  intros Hne Hx Hwne Hws.
  rewrite split_from_solid_app by done. rewrite app_nil_r.
  destruct ws as [|c ws]; [done|]. apply Forall_cons in Hws as [Hc Hws'].
  simpl. rewrite Hc.
  destruct (rev x) eqn:E.
  - apply (f_equal (@rev N)) in E. rewrite rev_involutive in E. done.
  - rewrite <- E, rev_involutive. f_equal. by apply split_from_blank_app.
Qed.

Lemma split_from_last_word x ws :
  x ≠ [] →
  Forall (fun c => is_space c = false) x →
  Forall (fun c => is_space c = true) ws →
  split_from [] (x ++ ws) = [x].
Proof.
  intros Hne Hx Hws.
  destruct ws as [|c ws].
  - rewrite app_nil_r. rewrite <- (app_nil_r x) at 1.
    rewrite split_from_solid_app by done. simpl. rewrite app_nil_r.
    destruct (rev x) eqn:E.
    + apply (f_equal (@rev N)) in E. rewrite rev_involutive in E. done.
    + by rewrite <- E, rev_involutive.
  - replace (x ++ c :: ws) with (x ++ (c :: ws) ++ []) by by rewrite app_nil_r.
    rewrite split_from_word by done. by rewrite split_from_blank.
Qed.

(** Two words between blanks split into the two words. *)
Lemma split_two_words ws0 x ws1 y ws2 :
  Forall (fun c => is_space c = true) ws0 →
  x ≠ [] → Forall (fun c => is_space c = false) x →
  ws1 ≠ [] → Forall (fun c => is_space c = true) ws1 →
  y ≠ [] → Forall (fun c => is_space c = false) y →
  Forall (fun c => is_space c = true) ws2 →
  split (ws0 ++ x ++ ws1 ++ y ++ ws2) = [x; y].
Proof.
  intros. unfold split.
  rewrite split_from_blank_app by done.
  rewrite split_from_word by done.
  by rewrite split_from_last_word.
Qed.

End TextFacts.

(** ** Numerals *)

Section NumeralFacts.
Context `{PyRuntime}.
Import PyInt.

Local Open Scope N_scope.

Lemma numeral_cons (u : Decimal.uint) :
  u ≠ Decimal.Nil →
  ∃ d rest, Spec.numeral u = (0x30 + d) :: rest ∧ d < 10.
Proof.
  destruct u; [done| | | | | | | | | |]; intros _;
    [exists 0|exists 1|exists 2|exists 3|exists 4
    |exists 5|exists 6|exists 7|exists 8|exists 9];
    eexists; (split; [reflexivity|lia]).
Qed.

Lemma numeral_solid (u : Decimal.uint) :
  Forall (fun c => PyStr.is_space c = false) (Spec.numeral u).
Proof.
  induction u; [constructor| | | | | | | | | |];
    (apply Forall_cons; split; [by vm_compute|exact IHu]).
Qed.

Lemma numeral_nonempty (u : Decimal.uint) :
  u ≠ Decimal.Nil → Spec.numeral u ≠ [].
Proof. intros Hu. destruct (numeral_cons u Hu) as (d & rest & -> & _). done. Qed.

Lemma numeral_ascii (u : Decimal.uint) :
  map to_ascii_decimal (Spec.numeral u) = Spec.numeral u.
Proof.
  unfold Spec.numeral, lit.
  induction u; [done| | | | | | | | | |];
    (cbn [DecimalString.NilEmpty.string_of_uint list_ascii_of_string map];
     rewrite IHu; reflexivity).
Qed.

Local Ltac scan_one acc n u d :=
  change (scan_digits acc n false (Spec.numeral (_ u)))
    with (scan_digits (10 * acc + d) (S n) false (Spec.numeral u)).

(** Reading the digits of a numeral from the left gives its value. *)
Lemma scan_digits_numeral (u : Decimal.uint) acc n :
  scan_digits acc n false (Spec.numeral u)
  = Some (acc * 10 ^ Unsigned.usize u + Unsigned.of_lu (Decimal.rev u),
          (n + Decimal.nb_digits u)%nat, []).
Proof.
  revert acc n.
  induction u; intros acc n.
  { simpl. do 3 f_equal; lia. }
  all: first [ scan_one acc n u 0 | scan_one acc n u 1 | scan_one acc n u 2
             | scan_one acc n u 3 | scan_one acc n u 4 | scan_one acc n u 5
             | scan_one acc n u 6 | scan_one acc n u 7 | scan_one acc n u 8
             | scan_one acc n u 9 ].
  all: unfold Decimal.rev; cbn [Decimal.revapp Unsigned.usize Decimal.nb_digits].
  all: rewrite Unsigned.of_lu_revapp, IHu, N.pow_succ_r'.
  all: do 3 f_equal; [cbn [Unsigned.of_lu]|].
  all: lia.
Qed.

(** [int] reads a numeral as the number it denotes. *)
Lemma int_numeral (u : Decimal.uint) :
  u ≠ Decimal.Nil → Spec.digits_fit u →
  int (Spec.numeral u) = Ok (Z.of_N (N.of_uint u)).
Proof.
  intros Hu Hfit. unfold int. rewrite numeral_ascii.
  pose proof (scan_digits_numeral u 0 0) as Hscan.
  destruct (numeral_cons u Hu) as (d & rest & E & Hd).
  rewrite E in *.
  assert (is_c_space (0x30 + d) = false) as Hsp.
  { unfold is_c_space. apply orb_false_intro; [apply andb_false_iff|];
      rewrite ?N.leb_gt, ?N.eqb_neq; lia. }
  cbn [skip_spaces]. rewrite Hsp.
  assert ((0x30 + d =? 0x2B) = false) as -> by (apply N.eqb_neq; lia).
  assert ((0x30 + d =? 0x2D) = false) as -> by (apply N.eqb_neq; lia).
  assert ((0x30 + d =? 0x5F) = false) as -> by (apply N.eqb_neq; lia).
  rewrite Hscan. simpl (0 + _)%nat.
  destruct (Decimal.nb_digits u) eqn:En.
  { destruct u; simpl in En; done. }
  rewrite <- En. unfold Spec.digits_fit in Hfit. rewrite Hfit.
  cbn [skip_spaces]. do 2 f_equal.
  unfold N.of_uint. rewrite Unsigned.of_uint_alt. lia.
Qed.

End NumeralFacts.

(** ** The collectors *)

Section CollectorFacts.
Context `{PyRuntime}.

Lemma count_line_classify c line :
  line ≠ [] →
  count_line c line =
    Ok {| dirty := true;
          untracked := untracked c + Spec.how_many Spec.Untracked [line];
          modified := modified c + (Spec.how_many Spec.StagedAndModified [line]
                                    + Spec.how_many Spec.Modified [line]);
          staged := staged c + (Spec.how_many Spec.StagedAndModified [line]
                                + Spec.how_many Spec.Staged [line]);
          deleted := deleted c + Spec.how_many Spec.Deleted [line] |}.
Proof.
  intros Hne. destruct line as [|c0 line]; [done|].
  unfold count_line, Spec.how_many, Spec.classify, Spec.first_column_in.
  cbn [filter list_filter].
  repeat case_bool_decide.
  all: try (cbn; repeat case_decide; try done; f_equal; f_equal; lia).
  all: cbn [take map] in *; rewrite ?elem_of_cons, ?elem_of_nil in *.
  all: destruct (N.eqb_spec c0 (chr "A")), (N.eqb_spec c0 (chr "M")),
         (N.eqb_spec c0 (chr "D")); try tauto.
  all: cbn; repeat case_decide; try done; f_equal; f_equal; lia.
Qed.

Lemma how_many_cons k line lines :
  Spec.how_many k (line :: lines) = Spec.how_many k [line] + Spec.how_many k lines.
Proof.
  unfold Spec.how_many. cbn [filter list_filter].
  case_decide; simpl; done.
Qed.

Lemma count_lines_tally lines : ∀ c,
  Forall (fun l => l ≠ []) lines →
  count_lines c lines = Ok (add_counts c (Spec.tally lines)).
Proof.
  induction lines as [|line lines IH]; intros c Hall.
  - simpl. destruct c. unfold add_counts. simpl.
    rewrite orb_false_r. unfold Spec.how_many. simpl. do 2 f_equal; lia.
  - apply Forall_cons in Hall as [Hne Hall].
    cbn [count_lines]. rewrite count_line_classify by done.
    cbn [mbind result_bind]. rewrite IH by done.
    unfold add_counts, Spec.tally. cbn [dirty untracked modified staged deleted].
    rewrite !(how_many_cons _ line lines).
    rewrite orb_true_r. f_equal. f_equal; lia.
Qed.

(** A line without a single character stops the collector. *)
Lemma count_line_empty c : count_line c [] = Raise IndexError.
Proof. reflexivity. Qed.

Lemma count_lines_empty_line lines : ∀ c,
  [] ∈ lines → count_lines c lines = Raise IndexError.
Proof.
  induction lines as [|line lines IH]; intros c Hin.
  - by apply elem_of_nil in Hin.
  - cbn [count_lines]. destruct line as [|c0 line].
    + reflexivity.
    + rewrite count_line_classify by done. cbn [mbind result_bind].
      apply IH. apply elem_of_cons in Hin as [?|?]; done.
Qed.

Lemma tally_only_untracked lines :
  Forall (fun l => take 2 l = lit "??") lines →
  Spec.tally lines =
    {| dirty := match lines with [] => false | _ => true end;
       untracked := length lines; modified := 0; staged := 0; deleted := 0 |}.
Proof.
  intros Hall. unfold Spec.tally.
  assert (Hk : ∀ k, Spec.how_many k lines
                    = if decide (k = Spec.Untracked) then length lines else 0).
  { intros k. induction Hall as [|l ls Hl _ IH]; [by case_decide|].
    rewrite how_many_cons, IH. unfold Spec.how_many, Spec.classify.
    cbn [filter list_filter]. rewrite Hl.
    rewrite bool_decide_eq_true_2 by done.
    repeat case_decide; simpl; congruence. }
  rewrite !Hk. done.
Qed.

End CollectorFacts.

(** ** Claims about the collectors *)

Section CollectorClaims.
Context `{PyRuntime}.

(** C1. The working-tree counts collector, given a porcelain status
    listing (exit code 0, every line carrying a status code, so no line
    empty), returns the tally of its lines by their two-character code:
    [??] counts as untracked, [AM] as staged and as modified, [ M] as
    modified, [ D] as deleted, and any other line whose first column is
    A, M or D as staged.  [dirty] is true exactly when there is a line,
    which is exactly when the output is not empty; empty output gives
    dirty false and four zero counts; and when every line is a [??]
    line, untracked is the number of lines and the other counts are 0. *)
Theorem collect_repo_counts_classifies (w : world) (root : option Path) (stdout : str) :
  run w root ["status"; "--porcelain"; "--ignore-submodules"; "-unormal"]%string
    = Ok (0%Z, stdout) →
  Forall (fun line => line ≠ []) (PyStr.splitlines stdout) →
  let lines := PyStr.splitlines stdout in
  let counts := Spec.tally lines in
  collect_repo_counts w root = Ok counts
  ∧ (dirty counts = true ↔ lines ≠ [])
  ∧ (lines ≠ [] ↔ stdout ≠ [])
  ∧ (stdout = [] → counts = no_counts)
  ∧ (Forall (fun line => take 2 line = lit "??") lines →
     untracked counts = length lines ∧ modified counts = 0
     ∧ staged counts = 0 ∧ deleted counts = 0).
Proof.
  intros Hrun Hlines lines counts.
  split; [|split; [|split; [|split]]].
  - unfold collect_repo_counts, _run_git_command. rewrite Hrun.
    cbn [mbind result_bind Z.eqb negb].
    rewrite count_lines_tally by done. reflexivity.
  - subst counts. by destruct lines.
  - subst lines. by rewrite splitlines_nil.
  - intros ->. reflexivity.
  - intros Hall. subst counts. by rewrite tally_only_untracked.
Qed.

(** C7, as the code has it.  When both queries can be run: the branch
    collector returns the trimmed output of the symbolic-branch query
    when that query exits with 0 and prints something; otherwise it
    returns the trimmed output of the short-hash query between square
    brackets when that one exits with 0; and it raises exactly when the
    first query gives no name (a nonzero exit, or exit code 0 with
    nothing printed) and the second exits with a nonzero code: a
    failure of the second query alone is enough when the first one
    succeeded without printing. *)
Theorem collect_current_branch_fallback (w : world) (root : option Path)
    (rc1 : Z) (out1 : str) (rc2 : Z) (out2 : str) :
  run w root ["branch"; "--show-current"]%string = Ok (rc1, out1) →
  run w root ["rev-parse"; "--short"; "HEAD"]%string = Ok (rc2, out2) →
  let r := collect_current_branch w root in
  (Spec.gives_name rc1 out1 → r = Ok (PyStr.strip out1))
  ∧ (¬ Spec.gives_name rc1 out1 → Spec.gives_hash rc2 →
     r = Ok (lit "[" ++ PyStr.strip out2 ++ lit "]"))
  ∧ (is_ok r = false ↔ ¬ Spec.gives_name rc1 out1 ∧ ¬ Spec.gives_hash rc2).
Proof.
  intros H1 H2 r. subst r. unfold collect_current_branch, _run_git_command.
  rewrite H1. cbn [mbind result_bind]. rewrite H2. cbn [mbind result_bind].
  unfold Spec.gives_name, Spec.gives_hash.
  destruct (Z.eqb_spec rc1 0), (Z.eqb_spec rc2 0); case_bool_decide; simpl;
    repeat split; try tauto; try done; intros; exfalso; tauto.
Qed.

(** C8. The ahead/behind collector returns (0, 0) whenever the command
    exits with a nonzero code, whatever it printed; and when it exits
    with 0 and prints two numerals separated by white space (with any
    white space around them), it returns the two numbers as
    (push_count, pull_count). *)
Theorem collect_counts_tolerates_failure (w : world) (root : option Path)
    (rc : Z) (stdout : str) :
  run w root ["rev-list"; "--left-right"; "--count"; "HEAD...@{u}"]%string
    = Ok (rc, stdout) →
  (rc ≠ 0%Z → collect_counts w root = Ok (0%Z, 0%Z))
  ∧ (∀ (a b : Decimal.uint) (ws0 ws1 ws2 : str),
       rc = 0%Z →
       stdout = ws0 ++ Spec.numeral a ++ ws1 ++ Spec.numeral b ++ ws2 →
       a ≠ Decimal.Nil → b ≠ Decimal.Nil → Spec.digits_fit a → Spec.digits_fit b →
       Spec.blank ws0 → Spec.blank ws1 → ws1 ≠ [] → Spec.blank ws2 →
       collect_counts w root = Ok (Z.of_N (N.of_uint a), Z.of_N (N.of_uint b))).
Proof.
  intros Hrun. unfold collect_counts, _run_git_command. rewrite Hrun.
  cbn [mbind result_bind]. split.
  - intros Hrc. by destruct (Z.eqb_spec rc 0).
  - intros a b ws0 ws1 ws2 -> -> Ha Hb Hfa Hfb H0 H1 Hne H2.
    cbn [Z.eqb].
    rewrite split_two_words;
      auto using numeral_nonempty, numeral_solid.
    rewrite !int_numeral by done. reflexivity.
Qed.

End CollectorClaims.

(** ** Marker files *)

Section MarkerFacts.
Context `{PyRuntime}.

Lemma first_line_app x s :
  Forall (fun c => c ≠ 0x0A%N ∧ c ≠ 0x0D%N) x →
  first_line (x ++ s) = x ++ first_line s.
Proof.
  induction 1 as [|c x [Hlf Hcr] _ IH]; [done|].
  cbn [app first_line].
  apply N.eqb_neq in Hlf, Hcr. rewrite Hlf, Hcr. cbn [orb]. by rewrite IH.
Qed.

Lemma numeral_in_line (u : Decimal.uint) :
  Forall (fun c => c ≠ 0x0A%N ∧ c ≠ 0x0D%N) (Spec.numeral u).
Proof.
  induction u; [constructor| | | | | | | | | |];
    (apply Forall_cons; split; [by vm_compute|exact IHu]).
Qed.

Lemma padding_in_line s :
  Spec.padding s → Forall (fun c => c ≠ 0x0A%N ∧ c ≠ 0x0D%N) s.
Proof. intros Hs. eapply Forall_impl; [exact Hs|]. by intros c (? & ? & ?). Qed.

Lemma padding_blank s : Spec.padding s → Spec.blank s.
Proof. intros Hs. eapply Forall_impl; [exact Hs|]. by intros c (? & ? & ?). Qed.

(** The first line of a file that holds a number, once stripped, is
    the numeral. *)
Lemma first_line_of_number (u : Decimal.uint) pad_l pad_r rest :
  Spec.padding pad_l → Spec.padding pad_r →
  match rest with [] => True | c :: _ => c = 0x0A%N ∨ c = 0x0D%N end →
  PyStr.strip (first_line (pad_l ++ Spec.numeral u ++ pad_r ++ rest))
  = Spec.numeral u.
Proof.
  intros Hl Hr Hrest.
  rewrite !first_line_app by auto using padding_in_line, numeral_in_line.
  apply strip_word; [by apply padding_blank| |apply numeral_solid].
  apply Forall_app. split; [by apply padding_blank|].
  destruct rest as [|c rest]; [constructor|].
  destruct Hrest as [-> | ->]; by repeat constructor.
Qed.

Lemma read_number (w : world) (f : Path) (n : Z) :
  Spec.holds_number (files w) f n →
  _read_first_line_int w f = Ok (Some n).
Proof.
  destruct 1 as [u pad_l pad_r rest Hf Hu Hfit Hl Hr Hrest].
  unfold _read_first_line_int. rewrite Hf.
  assert (readline (pad_l ++ Spec.numeral u ++ pad_r ++ rest)
          = Some (first_line (pad_l ++ Spec.numeral u ++ pad_r ++ rest))) as ->.
  { unfold readline.
    destruct (pad_l ++ Spec.numeral u ++ pad_r ++ rest) eqn:E; [|done].
    apply app_eq_nil in E as [_ E]. apply app_eq_nil in E as [E _].
    by apply numeral_nonempty in E. }
  rewrite first_line_of_number by done.
  rewrite int_numeral by done. reflexivity.
Qed.

Lemma read_empty (w : world) (f : Path) :
  files w !! f = Some (File []) → _read_first_line_int w f = Ok None.
Proof. intros Hf. unfold _read_first_line_int. by rewrite Hf. Qed.

Lemma read_missing (w : world) (f : Path) :
  files w !! f = None → _read_first_line_int w f = Raise FileNotFoundError.
Proof. intros Hf. unfold _read_first_line_int. by rewrite Hf. Qed.

Lemma read_unparseable (w : world) (f : Path) text line e :
  files w !! f = Some (File text) →
  readline text = Some line →
  PyInt.int (PyStr.strip line) = Raise e →
  _read_first_line_int w f = Raise e.
Proof.
  intros Hf Hline Hint. unfold _read_first_line_int.
  by rewrite Hf, Hline, Hint.
Qed.

(** With neither rebase directory, the chain of tests finds the first
    plain marker of the list. *)
Lemma plain_marker_chain (w : world) (root : Path) :
  is_dir (files w) (path_join (path_join root ".git") "rebase-merge") = false →
  is_dir (files w) (path_join (path_join root ".git") "rebase-apply") = false →
  collect_repo_state w root
  = Ok {| state := Spec.first_plain_marker (files w) (path_join root ".git");
          step := None; total := None |}.
Proof.
  intros Hm Ha. unfold collect_repo_state. rewrite Hm, Ha.
  unfold Spec.first_plain_marker, Spec.plain_markers. cbn [find fst].
  repeat (destruct (exists_ _ _); [reflexivity|]). reflexivity.
Qed.

(** C2. The operation-state decoder looks at the markers in a fixed
    order and the first one found decides.  With a rebase-merge
    directory: REBASE-i when the interactive marker exists, REBASE-m
    otherwise, step and total the numbers on the first lines of msgnum
    and end.  Else with a rebase-apply directory: step and total from
    next and last, and REBASE when the rebasing marker exists, else AM
    when the applying marker exists, else AM/REBASE.  Else the first of
    the merge, cherry-pick, revert and bisect-log markers that exists
    gives MERGING, CHERRY-PICKING, REVERTING or BISECTING.  With no
    marker at all, state, step and total are all null. *)
Theorem collect_repo_state_priority (w : world) (root : Path) :
  let fs := files w in
  let git_dir := path_join root ".git" in
  let merge_dir := path_join git_dir "rebase-merge" in
  let apply_dir := path_join git_dir "rebase-apply" in
  (∀ s t : Z,
     is_dir fs merge_dir = true →
     Spec.holds_number fs (path_join merge_dir "msgnum") s →
     Spec.holds_number fs (path_join merge_dir "end") t →
     collect_repo_state w root
     = Ok {| state := Some (if exists_ fs (path_join merge_dir "interactive")
                            then "REBASE-i" else "REBASE-m")%string;
             step := Some s; total := Some t |})
  ∧ (∀ s t : Z,
     is_dir fs merge_dir = false → is_dir fs apply_dir = true →
     Spec.holds_number fs (path_join apply_dir "next") s →
     Spec.holds_number fs (path_join apply_dir "last") t →
     collect_repo_state w root
     = Ok {| state := Some (if exists_ fs (path_join apply_dir "rebasing")
                            then "REBASE"
                            else if exists_ fs (path_join apply_dir "applying")
                                 then "AM" else "AM/REBASE")%string;
             step := Some s; total := Some t |})
  ∧ (is_dir fs merge_dir = false → is_dir fs apply_dir = false →
     collect_repo_state w root
     = Ok {| state := Spec.first_plain_marker fs git_dir;
             step := None; total := None |})
  ∧ (is_dir fs merge_dir = false → is_dir fs apply_dir = false →
     (∀ m, m ∈ Spec.plain_markers → exists_ fs (path_join git_dir m.1) = false) →
     collect_repo_state w root
     = Ok {| state := None; step := None; total := None |}).
Proof.
  intros fs git_dir merge_dir apply_dir.
  split; [|split; [|split]].
  - intros s t Hd Hs Ht. unfold collect_repo_state.
    fold git_dir merge_dir fs. rewrite Hd.
    rewrite (read_number _ _ _ Hs), (read_number _ _ _ Ht). reflexivity.
  - intros s t Hm Hd Hs Ht. unfold collect_repo_state.
    fold git_dir merge_dir apply_dir fs. rewrite Hm, Hd.
    rewrite (read_number _ _ _ Hs), (read_number _ _ _ Ht). reflexivity.
  - apply plain_marker_chain.
  - intros Hm Ha Hnone. rewrite plain_marker_chain by done. f_equal. f_equal.
    unfold Spec.first_plain_marker.
    destruct (find _ _) as [m|] eqn:E; [|done].
    apply find_some in E as [Hin Hex].
    rewrite Hnone in Hex; [done|]. by apply list_elem_of_In.
Qed.

End MarkerFacts.

(** ** The poller *)

Section PollerFacts.
Context `{PyRuntime}.

Lemma setdefault_value (k : option Path) (d : Z) (m : gmap (option Path) Z) :
  (setdefault k d m).2 = default d (m !! k).
Proof. unfold setdefault. by destruct (m !! k). Qed.

(** A cycle leaves everything but the snapshot as its first part left
    it. *)
Lemma collect_after_check (w : world) (p : process) (root : Path) :
  repo_root p = Some root →
  ∃ status, (collect w p).1 = set_repo_status status (check_fetch w root p).1.
Proof.
  intros Hroot. unfold collect. rewrite Hroot.
  destruct (check_fetch w root p) as [p1 [[]|e]]; simpl.
  - destruct (gather w root); simpl; [by eexists|].
    exists (repo_status p1). by destruct p1.
  - exists (repo_status p1). by destruct p1.
Qed.

Lemma check_fetch_keeps_status (w : world) (p : process) (root : Path) :
  repo_status (check_fetch w root p).1 = repo_status p.
Proof.
  unfold check_fetch.
  destruct (fetch_future p) as [[st|[[]|e]]|]; try done.
  destruct (run w _ _) as [[rc stdout]|e]; [|done].
  case_bool_decide; [done|].
  destruct (setdefault _ _ _) as [m last]. by case_match.
Qed.

Lemma collect_result (w : world) (p : process) (root : Path) :
  repo_root p = Some root →
  (collect w p).2 =
    match (check_fetch w root p).2 with
    | Raise e => Raise e
    | Ok _ => match gather w root with Raise e => Raise e | Ok _ => Ok tt end
    end.
Proof.
  intros Hroot. unfold collect. rewrite Hroot.
  destruct (check_fetch w root p) as [p1 [[]|e]]; simpl; [|done].
  by destruct (gather w root).
Qed.

Lemma collect_raise_keeps_status (w : world) (p : process) e :
  (collect w p).2 = Raise e → repo_status (collect w p).1 = repo_status p.
Proof.
  unfold collect. destruct (repo_root p) as [root|] eqn:Hroot; [|done].
  pose proof (check_fetch_keeps_status w p root) as Hk.
  destruct (check_fetch w root p) as [p1 [[]|e1]]; simpl in *; [|done].
  by destruct (gather w root).
Qed.

(** [gather] is the five collectors one after the other. *)
Lemma gather_ok_iff (w : world) (root : Path) :
  is_ok (gather w root)
  = is_ok (collect_counts w (Some root))
    && is_ok (collect_current_branch w (Some root))
    && is_ok (collect_repo_counts w (Some root))
    && is_ok (collect_repo_state w root)
    && is_ok (collect_stashes w (Some root)).
Proof.
  unfold gather.
  destruct (collect_counts w _) as [[a b]|]; [|done].
  destruct (collect_current_branch w _); [|done].
  destruct (collect_repo_counts w _); [|done].
  destruct (collect_repo_state w _); [|done].
  by destruct (collect_stashes w _).
Qed.

Lemma collect_fails_with_gather (w : world) (p : process) (root : Path) :
  repo_root p = Some root → is_ok (gather w root) = false →
  is_ok (collect w p).2 = false.
Proof.
  intros Hroot Hg. rewrite (collect_result w p root Hroot).
  destruct (check_fetch w root p).2 as [[]|]; [|done].
  by destruct (gather w root).
Qed.

Lemma gather_state (w : world) (root : Path) status :
  gather w root = Ok status →
  ∃ st, collect_repo_state w root = Ok st
        ∧ RepoStatus.state status = state st
        ∧ RepoStatus.step status = step st
        ∧ RepoStatus.total status = total st.
Proof.
  unfold gather.
  destruct (collect_counts w _) as [[a b]|]; [|done].
  destruct (collect_current_branch w _); [|done].
  destruct (collect_repo_counts w _); [|done].
  destruct (collect_repo_state w _) as [st|]; [|done].
  destruct (collect_stashes w _); [|done].
  cbn. intros [= <-]. by exists st.
Qed.

(** C6. When a facet collector fails during a cycle, the cycle fails
    and the snapshot stored in the poller is the one that was there
    before; more generally a cycle that fails for any reason leaves the
    stored snapshot unchanged, and the snapshot stored after any cycle
    is either the previous one or the complete merge of five successful
    collectors. *)
Theorem collect_failure_keeps_snapshot (w : world) (p : process) (root : Path) :
  repo_root p = Some root →
  (is_ok (collect_counts w (Some root)) = false
   ∨ is_ok (collect_current_branch w (Some root)) = false
   ∨ is_ok (collect_repo_counts w (Some root)) = false
   ∨ is_ok (collect_repo_state w root) = false
   ∨ is_ok (collect_stashes w (Some root)) = false →
   is_ok (collect w p).2 = false
   ∧ repo_status (collect w p).1 = repo_status p)
  ∧ (is_ok (collect w p).2 = false →
     repo_status (collect w p).1 = repo_status p)
  ∧ (repo_status (collect w p).1 = repo_status p
     ∨ ∃ status, gather w root = Ok status
                 ∧ repo_status (collect w p).1 = Some status).
Proof.
  intros Hroot.
  assert (Hfail : is_ok (collect w p).2 = false →
                  repo_status (collect w p).1 = repo_status p).
  { destruct (collect w p).2 eqn:E; [done|]. intros _.
    by eapply collect_raise_keeps_status. }
  split; [|split; [exact Hfail|]].
  - intros Hany.
    assert (is_ok (collect w p).2 = false) as Hc.
    { apply (collect_fails_with_gather w p root Hroot).
      rewrite gather_ok_iff.
      destruct Hany as [-> | [-> | [-> | [-> | ->]]]];
        rewrite ?andb_false_r; reflexivity. }
    split; [exact Hc|by apply Hfail].
  - pose proof (check_fetch_keeps_status w p root) as Hk.
    unfold collect. rewrite Hroot.
    destruct (check_fetch w root p) as [p1 [[]|e1]]; simpl in *; [|by left].
    destruct (gather w root) as [status|]; [|by left].
    right. by exists status.
Qed.

End PollerFacts.

(** ** The background fetch *)

Section FetchFacts.
Context `{PyRuntime}.

Lemma check_fetch_pending (w : world) (root : Path) (p : process) (f : future) :
  fetch_future p = Some f →
  let p' := (check_fetch w root p).1 in
  started p' = started p
  ∧ (fetch_future p' = Some f ∨ fetch_future p' = None ∧ reaped p' = S (reaped p)).
Proof.
  intros Hf. unfold check_fetch. rewrite Hf.
  destruct f as [st|[[]|e]]; simpl; auto.
Qed.

(** Without a pending fetch, one is created exactly when the remotes
    listing has something in it and the interval has passed. *)
Lemma check_fetch_idle (w : world) (root : Path) (p : process) rc stdout :
  fetch_future p = None →
  run w (Some root) ["remote"; "show"]%string = Ok (rc, stdout) →
  let due := negb (bool_decide (PyStr.strip stdout = []))
             && (default 0%Z (last_poll p !! Some root) + POLLING_INTERVAL
                 <? clock w)%Z in
  let p' := (check_fetch w root p).1 in
  started p' = (if due then S (started p) else started p)
  ∧ fetch_future p' = (if due then Some (Running Created) else None)
  ∧ reaped p' = reaped p.
Proof.
  intros Hf Hrun. unfold check_fetch. rewrite Hf, Hrun.
  case_bool_decide; simpl; [done|].
  pose proof (setdefault_value (Some root) 0 (last_poll p)) as Hv.
  destruct (setdefault _ _ _) as [m last]. simpl in Hv. subst last.
  by case_match.
Qed.

Lemma check_fetch_balanced (w : world) (root : Path) (p : process) :
  balanced p → balanced (check_fetch w root p).1.
Proof.
  unfold balanced. intros Hb.
  destruct (fetch_future p) as [f|] eqn:Hf.
  - destruct (check_fetch_pending w root p f Hf) as [Hs [Hk | [Hn Hr]]].
    + rewrite Hs, Hk.
      assert (reaped (check_fetch w root p).1 = reaped p) as ->; [|done].
      unfold check_fetch in *. rewrite Hf in *.
      by destruct f as [st|[[]|e]].
    + rewrite Hs, Hn, Hr. lia.
  - unfold check_fetch. rewrite Hf.
    destruct (run w _ _) as [[rc stdout]|e]; [|simpl; by rewrite Hf].
    case_bool_decide; [simpl; by rewrite Hf|].
    destruct (setdefault _ _ _) as [m last].
    case_match; simpl; [lia|by rewrite Hf].
Qed.

Lemma react_balanced (p : process) (e : event) :
  balanced p → balanced (react p e).
Proof.
  intros Hb. destruct e as [value|w| |w|r]; simpl.
  - exact Hb.
  - destruct (repo_root p) as [root|] eqn:Hroot.
    + destruct (collect_after_check w p root Hroot) as [status ->].
      apply (check_fetch_balanced w root p Hb).
    + unfold collect. rewrite Hroot. exact Hb.
  - unfold _do_fetch_begin, balanced in *.
    destruct (fetch_future p) as [[[]|]|] eqn:Hf; cbn; rewrite ?Hf; done.
  - unfold _do_fetch_resume, balanced in *.
    destruct (fetch_future p) as [[[]|]|] eqn:Hf; cbn; rewrite ?Hf; try done.
    destruct (run w _ _); [|done].
    repeat case_match; done.
  - unfold _do_fetch_end, balanced in *.
    destruct (fetch_future p) as [[[]|]|] eqn:Hf; cbn; rewrite ?Hf; done.
Qed.

Lemma run_events_balanced (es : list event) : ∀ p,
  balanced p → balanced (run_events p es).
Proof.
  induction es as [|e es IH]; intros p Hb; [done|].
  apply IH. by apply react_balanced.
Qed.

(** The update trigger is called at one place only. *)
Lemma react_triggered (q : process) (e : event) :
  triggered (react q e) ≠ triggered q →
  ∃ w cur, e = FetchExits w
           ∧ fetch_future q = Some (Running (Fetching cur))
           ∧ repo_root q = cur ∧ update_trigger q = true
           ∧ triggered (react q e) = triggered q ++ [session_id q].
Proof.
  destruct e as [value|w| |w|r]; simpl.
  - done.
  - destruct (repo_root q) as [root|] eqn:Hroot.
    + destruct (collect_after_check w q root Hroot) as [status ->]. simpl.
      unfold check_fetch.
      destruct (fetch_future q) as [[st|[[]|e]]|]; try done.
      destruct (run w _ _) as [[rc stdout]|e]; [|done].
      case_bool_decide; [done|].
      destruct (setdefault _ _ _) as [m last]. by case_match.
    + unfold collect. by rewrite Hroot.
  - unfold _do_fetch_begin. by destruct (fetch_future q) as [[[]|]|].
  - unfold _do_fetch_resume.
    destruct (fetch_future q) as [[[|cur|]|]|] eqn:Hf; try done.
    destruct (run w _ _); [|done].
    simpl. case_bool_decide as Hroot; [|done].
    destruct (update_trigger q) eqn:Ht; [|done].
    intros _. exists w, cur. by simpl.
  - unfold _do_fetch_end. by destruct (fetch_future q) as [[[]|]|].
Qed.

End FetchFacts.

(** ** Claims about the background fetch *)

Section FetchClaims.
Context `{PyRuntime}.

(** C3, as the code has it.  The poller holds at most one pending
    refresh: over any run from a fresh poller, the fetch tasks created
    and not yet reaped are exactly the one in its slot, if any.  A
    cycle that finds a refresh pending creates no task.  A cycle that
    finds none, whose remotes listing is not empty once white space is
    trimmed off it, and whose clock exceeds the registry's timestamp
    for the current root (0 when there is none) plus the polling
    interval, creates exactly one task and records it as the pending
    refresh; when the trimmed listing is empty or the interval has not
    passed, it creates none. *)
Theorem debounce_single_refresh (w : world) (p : process) (root : Path) :
  repo_root p = Some root →
  let p' := (collect w p).1 in
  let last := default 0%Z (last_poll p !! Some root) in
  (∀ sid trigger registry es,
     balanced (run_events (init sid trigger registry) es))
  ∧ (∀ f, fetch_future p = Some f →
       started p' = started p
       ∧ (fetch_future p' = Some f ∨ fetch_future p' = None))
  ∧ (∀ rc stdout,
       fetch_future p = None →
       run w (Some root) ["remote"; "show"]%string = Ok (rc, stdout) →
       PyStr.strip stdout ≠ [] →
       (last + POLLING_INTERVAL < clock w)%Z →
       started p' = S (started p) ∧ fetch_future p' = Some (Running Created))
  ∧ (∀ rc stdout,
       fetch_future p = None →
       run w (Some root) ["remote"; "show"]%string = Ok (rc, stdout) →
       PyStr.strip stdout = [] ∨ (clock w ≤ last + POLLING_INTERVAL)%Z →
       started p' = started p ∧ fetch_future p' = None).
Proof.
  intros Hroot p' last.
  destruct (collect_after_check w p root Hroot) as [status Hc].
  subst p'. rewrite Hc. simpl.
  split; [|split; [|split]].
  - intros. apply run_events_balanced. unfold balanced. simpl. lia.
  - intros f Hf.
    destruct (check_fetch_pending w root p f Hf) as [Hs [Hk | [Hk _]]]; auto.
  - intros rc stdout Hf Hrun Hout Hdue.
    destruct (check_fetch_idle w root p rc stdout Hf Hrun) as (Hs & Hk & _).
    rewrite Hs, Hk. subst last.
    rewrite bool_decide_eq_false_2 by done.
    apply Z.ltb_lt in Hdue. rewrite Hdue. done.
  - intros rc stdout Hf Hrun Hnot.
    destruct (check_fetch_idle w root p rc stdout Hf Hrun) as (Hs & Hk & _).
    rewrite Hs, Hk. subst last.
    destruct Hnot as [Hout | Hearly].
    + rewrite bool_decide_eq_true_2 by done. done.
    + apply Z.ltb_ge in Hearly. rewrite Hearly, andb_false_r. done.
Qed.

(** C4. A refresh is started while the root is R, that is, the task
    takes its first step, where it reads the root, while the root is R;
    the root is then set to a value that gives another path than R, or
    none (paths compared as pathlib does, after [Path(value)]); the
    fetch ends, whatever its exit code: the registry's timestamp for R
    becomes the time of that moment, the update trigger is not called,
    and the task is done without error.  The trigger is called, with
    the session identifier, at one place only: when a fetch ends and
    the poller's root then equals the root the task read when it
    began; and there it is called whenever the poller has a trigger. *)
Theorem reap_with_changed_root (p : process) (R : Path) (value : option string)
    (wf : world) (o : Z * str) :
  repo_root p = Some R →
  fetch_future p = Some (Running Created) →
  root_of_value value ≠ Some R →
  run wf (Some R) ["fetch"; "--quiet"]%string = Ok o →
  let p' := run_events p [FetchBegins; SetRepoRoot value; FetchExits wf] in
  last_poll p' !! Some R = Some (clock wf)
  ∧ triggered p' = triggered p
  ∧ fetch_future p' = Some (Done (Ok tt))
  ∧ (∀ q e, triggered (react q e) ≠ triggered q →
       ∃ w cur, e = FetchExits w
                ∧ fetch_future q = Some (Running (Fetching cur))
                ∧ repo_root q = cur
                ∧ triggered (react q e) = triggered q ++ [session_id q])
  ∧ (∀ q w cur o',
       fetch_future q = Some (Running (Fetching cur)) →
       repo_root q = cur → update_trigger q = true →
       run w cur ["fetch"; "--quiet"]%string = Ok o' →
       triggered (react q (FetchExits w)) = triggered q ++ [session_id q]).
Proof.
  intros Hroot Hf Hvalue Hrun p'.
  assert (Hp' : last_poll p' !! Some R = Some (clock wf)
                ∧ triggered p' = triggered p
                ∧ fetch_future p' = Some (Done (Ok tt))).
  { subst p'. unfold run_events. cbn [fold_left react].
    unfold _do_fetch_begin. rewrite Hf, Hroot.
    set (p1 := set_fetch_future _ p).
    unfold repo_root_setter, _do_fetch_resume. cbn. rewrite Hrun. cbn.
    rewrite bool_decide_eq_false_2 by done. cbn.
    by rewrite lookup_insert_eq. }
  destruct Hp' as (? & ? & ?).
  split; [done|split; [done|split; [done|split]]].
  - intros q e Hne.
    destruct (react_triggered q e Hne) as (w & cur & ? & ? & ? & ? & ?).
    by exists w, cur.
  - intros q w cur o' Hq Hcur Htrig Hrun'. cbn. unfold _do_fetch_resume.
    rewrite Hq, Hrun'. cbn.
    rewrite bool_decide_eq_true_2 by done. by rewrite Htrig.
Qed.

(** C5, as the code has it.  The exit code of the background fetch is
    not looked at: when the command has run, whatever its exit code,
    the task stamps the registry and goes on to the trigger or is done
    without error, and a task done without error does not fail the
    cycle that reaps it.  What fails that cycle is an exception raised
    in the task, when the command could not be run or the trigger
    failed: the task is then done with that exception, and the cycle
    that finds it raises it, leaving the poller as it was. *)
Theorem fetch_exit_code_ignored (w : world) (p : process) (cur : option Path) :
  fetch_future p = Some (Running (Fetching cur)) →
  (∀ rc stdout,
     run w cur ["fetch"; "--quiet"]%string = Ok (rc, stdout) →
     let p' := _do_fetch_resume w p in
     last_poll p' !! cur = Some (clock w)
     ∧ (fetch_future p' = Some (Done (Ok tt))
        ∨ fetch_future p' = Some (Running Triggering)))
  ∧ (∀ e, run w cur ["fetch"; "--quiet"]%string = Raise e →
          fetch_future (_do_fetch_resume w p) = Some (Done (Raise e)))
  ∧ (∀ q r, fetch_future q = Some (Running Triggering) →
            fetch_future (_do_fetch_end r q) = Some (Done r))
  ∧ (∀ q root w', repo_root q = Some root →
       fetch_future q = Some (Done (Ok tt)) →
       (check_fetch w' root q).2 = Ok tt)
  ∧ (∀ q root w' e, repo_root q = Some root →
       fetch_future q = Some (Done (Raise e)) →
       collect w' q = (q, Raise e)).
Proof.
  intros Hf. split; [|split; [|split; [|split]]].
  - intros rc stdout Hrun p'. subst p'. unfold _do_fetch_resume.
    rewrite Hf, Hrun. cbn.
    repeat case_match; cbn; rewrite lookup_insert_eq; auto.
  - intros e Hrun. unfold _do_fetch_resume. by rewrite Hf, Hrun.
  - intros q r Hq. unfold _do_fetch_end. by rewrite Hq.
  - intros q root w' Hroot Hq. unfold check_fetch. by rewrite Hq.
  - intros q root w' e Hroot Hq. unfold collect, check_fetch.
    by rewrite Hroot, Hq.
Qed.

(** What the reaping cycle does to the registry and the slot. *)
Lemma reaping_cycle (w : world) (p : process) (root : Path) :
  repo_root p = Some root →
  fetch_future p = Some (Done (Ok tt)) →
  last_poll (collect w p).1 = <[Some root := clock w]> (last_poll p)
  ∧ fetch_future (collect w p).1 = None
  ∧ repo_root (collect w p).1 = Some root
  ∧ started (collect w p).1 = started p.
Proof.
  intros Hroot Hf.
  destruct (collect_after_check w p root Hroot) as [status ->].
  unfold check_fetch. rewrite Hf. by cbn.
Qed.

(** A cycle with nothing pending, no later than the interval after the
    registry's timestamp, creates nothing. *)
Lemma early_cycle (w : world) (p : process) (root : Path) (t : Z) :
  repo_root p = Some root → fetch_future p = None →
  last_poll p !! Some root = Some t →
  (clock w ≤ t + POLLING_INTERVAL)%Z →
  started (collect w p).1 = started p ∧ fetch_future (collect w p).1 = None.
Proof.
  intros Hroot Hf Hlast Hearly.
  destruct (collect_after_check w p root Hroot) as [status ->]. cbn.
  destruct (run w (Some root) ["remote"; "show"]%string) as [[rc stdout]|e] eqn:Hrun.
  - destruct (check_fetch_idle w root p rc stdout Hf Hrun) as (Hs & Hk & _).
    rewrite Hs, Hk, Hlast. change (default 0%Z (Some t)) with t.
    apply Z.ltb_ge in Hearly. rewrite Hearly, andb_false_r. done.
  - unfold check_fetch. rewrite Hf, Hrun. done.
Qed.

(** C9. The cycle that reaps a finished refresh sets the registry's
    timestamp for the poller's root at that moment to the time of the
    reap, whatever root the refresh was bound to, and empties the slot;
    a later cycle for that root no more than the polling interval after
    the reap then creates no task.  So when the root went from R to
    another path R2 (what [Path(value)] gives for the value set) while
    the refresh was in flight, the registry holds the time of the
    fetch's end for R and the time of the reap for R2. *)
Theorem reap_stamps_current_root (w : world) (p : process) (R2 : Path) :
  repo_root p = Some R2 →
  fetch_future p = Some (Done (Ok tt)) →
  let p' := (collect w p).1 in
  last_poll p' !! Some R2 = Some (clock w)
  ∧ fetch_future p' = None
  ∧ (∀ w', (clock w' ≤ clock w + POLLING_INTERVAL)%Z →
       started (collect w' p').1 = started p'
       ∧ fetch_future (collect w' p').1 = None)
  ∧ (∀ p0 R value wf o,
       repo_root p0 = Some R → root_of_value value = Some R2 → R ≠ R2 →
       fetch_future p0 = Some (Running Created) →
       run wf (Some R) ["fetch"; "--quiet"]%string = Ok o →
       let q := run_events p0
                  [FetchBegins; SetRepoRoot value; FetchExits wf; Cycle w] in
       last_poll q !! Some R = Some (clock wf)
       ∧ last_poll q !! Some R2 = Some (clock w)
       ∧ fetch_future q = None).
Proof.
  intros Hroot Hf p'.
  destruct (reaping_cycle w p R2 Hroot Hf) as (Hl & Hk & Hr & Hs).
  split; [|split; [|split]].
  - subst p'. rewrite Hl. apply lookup_insert_eq.
  - exact Hk.
  - intros w' Hearly. apply (early_cycle w' p' R2 (clock w)); try done.
    subst p'. rewrite Hl. apply lookup_insert_eq.
  - intros p0 R value wf o Hroot0 Hvalue Hne Hf0 Hrun q.
    subst q. unfold run_events. cbn [fold_left react].
    unfold _do_fetch_begin. rewrite Hf0, Hroot0.
    unfold repo_root_setter. rewrite Hvalue.
    set (p1 := set_repo_root _ _).
    assert (_do_fetch_resume wf p1
            = set_fetch_future (Some (Done (Ok tt)))
                (set_last_poll (<[Some R := clock wf]> (last_poll p0)) p1)) as ->.
    { unfold _do_fetch_resume. cbn. rewrite Hrun. cbn.
      rewrite bool_decide_eq_false_2; [done|]. congruence. }
    set (p2 := set_fetch_future _ _).
    destruct (reaping_cycle w p2 R2 eq_refl eq_refl) as (Hl2 & Hk2 & _ & _).
    rewrite Hl2, Hk2. cbn.
    rewrite lookup_insert_eq, lookup_insert_ne, lookup_insert_eq by congruence.
    done.
Qed.

End FetchClaims.

(** ** Marker files in a cycle *)

Section MarkerClaims.
Context `{PyRuntime}.

Lemma merge_case (w : world) (root : Path) :
  let merge_dir := path_join (path_join root ".git") "rebase-merge" in
  is_dir (files w) merge_dir = true →
  collect_repo_state w root =
    (step ← _read_first_line_int w (path_join merge_dir "msgnum");
     total ← _read_first_line_int w (path_join merge_dir "end");
     Ok {| state := Some (if exists_ (files w) (path_join merge_dir "interactive")
                          then "REBASE-i" else "REBASE-m")%string;
           step := step; total := total |}).
Proof. intros merge_dir Hd. unfold collect_repo_state. fold merge_dir. by rewrite Hd. Qed.

Lemma apply_case (w : world) (root : Path) :
  let merge_dir := path_join (path_join root ".git") "rebase-merge" in
  let apply_dir := path_join (path_join root ".git") "rebase-apply" in
  is_dir (files w) merge_dir = false →
  is_dir (files w) apply_dir = true →
  collect_repo_state w root =
    (step ← _read_first_line_int w (path_join apply_dir "next");
     total ← _read_first_line_int w (path_join apply_dir "last");
     Ok {| state := Some (if exists_ (files w) (path_join apply_dir "rebasing")
                          then "REBASE"
                          else if exists_ (files w) (path_join apply_dir "applying")
                               then "AM" else "AM/REBASE")%string;
           step := step; total := total |}).
Proof.
  intros merge_dir apply_dir Hm Hd. unfold collect_repo_state.
  fold merge_dir apply_dir. by rewrite Hm, Hd.
Qed.

(** C10. Reading a numeric marker file gives the number on its first
    line; an empty file gives None, and the decoder then returns None
    for that field (step for msgnum and next, total for end and last)
    without failing, and a cycle that succeeds publishes it so; a
    missing file raises FileNotFoundError and a first line that [int]
    does not take raises what [int] raises, and in the directory where
    the file is read that makes the decoder and the whole cycle fail. *)
Theorem read_first_line_int_cases (w : world) (root : Path) :
  let merge_dir := path_join (path_join root ".git") "rebase-merge" in
  let apply_dir := path_join (path_join root ".git") "rebase-apply" in
  (∀ f n, Spec.holds_number (files w) f n →
          _read_first_line_int w f = Ok (Some n))
  ∧ (∀ f, files w !! f = Some (File []) → _read_first_line_int w f = Ok None)
  ∧ (∀ f, files w !! f = None →
          _read_first_line_int w f = Raise FileNotFoundError)
  ∧ (∀ f text line e,
       files w !! f = Some (File text) → readline text = Some line →
       PyInt.int (PyStr.strip line) = Raise e →
       _read_first_line_int w f = Raise e)
  ∧ (∀ a b,
       is_dir (files w) merge_dir = true →
       _read_first_line_int w (path_join merge_dir "msgnum") = Ok a →
       _read_first_line_int w (path_join merge_dir "end") = Ok b →
       ∃ st, collect_repo_state w root = Ok st ∧ step st = a ∧ total st = b)
  ∧ (∀ a b,
       is_dir (files w) merge_dir = false → is_dir (files w) apply_dir = true →
       _read_first_line_int w (path_join apply_dir "next") = Ok a →
       _read_first_line_int w (path_join apply_dir "last") = Ok b →
       ∃ st, collect_repo_state w root = Ok st ∧ step st = a ∧ total st = b)
  ∧ (∀ p st,
       repo_root p = Some root → collect_repo_state w root = Ok st →
       is_ok (collect w p).2 = true →
       ∃ status, repo_status (collect w p).1 = Some status
                 ∧ RepoStatus.step status = step st
                 ∧ RepoStatus.total status = total st)
  ∧ (∀ p,
       repo_root p = Some root →
       is_dir (files w) merge_dir = true →
       is_ok (_read_first_line_int w (path_join merge_dir "msgnum")) = false
       ∨ is_ok (_read_first_line_int w (path_join merge_dir "end")) = false →
       is_ok (collect_repo_state w root) = false
       ∧ is_ok (collect w p).2 = false)
  ∧ (∀ p,
       repo_root p = Some root →
       is_dir (files w) merge_dir = false → is_dir (files w) apply_dir = true →
       is_ok (_read_first_line_int w (path_join apply_dir "next")) = false
       ∨ is_ok (_read_first_line_int w (path_join apply_dir "last")) = false →
       is_ok (collect_repo_state w root) = false
       ∧ is_ok (collect w p).2 = false).
Proof.
  intros merge_dir apply_dir.
  assert (Hcycle : ∀ p, repo_root p = Some root →
            is_ok (collect_repo_state w root) = false →
            is_ok (collect w p).2 = false).
  { intros p Hroot Hst. apply (collect_fails_with_gather w p root Hroot).
    rewrite gather_ok_iff, Hst. by rewrite andb_false_r. }
  repeat apply conj.
  - intros f n. apply read_number.
  - intros f. apply read_empty.
  - intros f. apply read_missing.
  - intros f text line e. apply read_unparseable.
  - intros a b Hd Ha Hb. rewrite (merge_case w root Hd).
    fold merge_dir. rewrite Ha, Hb. by eexists.
  - intros a b Hm Hd Ha Hb. rewrite (apply_case w root Hm Hd).
    fold apply_dir. rewrite Ha, Hb. by eexists.
  - intros p st Hroot Hst Hok.
    rewrite (collect_result w p root Hroot) in Hok.
    unfold collect. rewrite Hroot.
    destruct (check_fetch w root p) as [p1 [[]|e]]; [|done]. cbn in *.
    destruct (gather w root) as [status|e] eqn:Hg; [|done].
    destruct (gather_state w root status Hg) as (st' & Hst' & _ & ? & ?).
    rewrite Hst in Hst'. injection Hst' as <-. by exists status.
  - intros p Hroot Hd Hbad.
    assert (is_ok (collect_repo_state w root) = false) as Hst.
    { rewrite (merge_case w root Hd). fold merge_dir.
      destruct (_read_first_line_int w (path_join merge_dir "msgnum")); [|done].
      destruct (_read_first_line_int w (path_join merge_dir "end")); [|done].
      by destruct Hbad. }
    split; [exact Hst|by apply Hcycle].
  - intros p Hroot Hm Hd Hbad.
    assert (is_ok (collect_repo_state w root) = false) as Hst.
    { rewrite (apply_case w root Hm Hd). fold apply_dir.
      destruct (_read_first_line_int w (path_join apply_dir "next")); [|done].
      destruct (_read_first_line_int w (path_join apply_dir "last")); [|done].
      by destruct Hbad. }
    split; [exact Hst|by apply Hcycle].
Qed.

End MarkerClaims.

(** ** The claims on concrete repositories *)

Import Examples.

Lemma collect_repo_counts_classifies_witness :
  let stdout := lit "?? a" ++ LF ++ lit "?? b" ++ LF in
  let w := answering status_args (0%Z, stdout) (quiet_world 0) in
  run w (Some "/r"%string) status_args = Ok (0%Z, stdout)
  ∧ Forall (fun line => line ≠ []) (PyStr.splitlines stdout)
  ∧ collect_repo_counts w (Some "/r"%string)
    = Ok {| dirty := true; untracked := 2; modified := 0;
            staged := 0; deleted := 0 |}.
Proof.
  intros stdout w.
  assert (H1 : run w (Some "/r"%string) status_args = Ok (0%Z, stdout))
    by reflexivity.
  assert (H2 : Forall (fun line => line ≠ []) (PyStr.splitlines stdout))
    by (vm_compute; repeat constructor; discriminate).
  split; [exact H1|split; [exact H2|]].
  destruct (collect_repo_counts_classifies w (Some "/r"%string) stdout H1 H2)
    as [-> _].
  reflexivity.
Defined.

Lemma holds_3 :
  Spec.holds_number rebasing_files "/r/.git/rebase-merge/msgnum" 3.
Proof.
  apply (Spec.holds_number_intro rebasing_files _ (D3 Nil) [] [] LF).
  - reflexivity.
  - discriminate.
  - reflexivity.
  - constructor.
  - constructor.
  - by left.
Qed.

Lemma holds_10 :
  Spec.holds_number rebasing_files "/r/.git/rebase-merge/end" 10.
Proof.
  apply (Spec.holds_number_intro rebasing_files _ (D1 (D0 Nil)) [] [] LF).
  - reflexivity.
  - discriminate.
  - reflexivity.
  - constructor.
  - constructor.
  - by left.
Qed.

Lemma collect_repo_state_priority_witness :
  let w := with_files rebasing_files (quiet_world 0) in
  is_dir (files w) "/r/.git/rebase-merge" = true
  ∧ exists_ (files w) "/r/.git/rebase-merge/interactive" = true
  ∧ Spec.holds_number (files w) "/r/.git/rebase-merge/msgnum" 3
  ∧ Spec.holds_number (files w) "/r/.git/rebase-merge/end" 10
  ∧ collect_repo_state w "/r"
    = Ok {| state := Some "REBASE-i"%string; step := Some 3%Z; total := Some 10%Z |}
  ∧ collect_repo_state (quiet_world 0) "/r"
    = Ok {| state := None; step := None; total := None |}.
Proof.
  intros w.
  split; [reflexivity|]. split; [reflexivity|].
  split; [exact holds_3|]. split; [exact holds_10|].
  split.
  - destruct (collect_repo_state_priority w "/r") as [Hmerge _].
    exact (Hmerge 3%Z 10%Z eq_refl holds_3 holds_10).
  - destruct (collect_repo_state_priority (quiet_world 0) "/r")
      as (_ & _ & _ & Hnone).
    apply Hnone; [reflexivity|reflexivity|].
    intros m Hm. reflexivity.
Defined.

Lemma debounce_single_refresh_witness :
  let w := quiet_world 100 in
  let p := watching "/r" None in
  repo_root p = Some "/r"%string
  ∧ fetch_future p = None
  ∧ run w (Some "/r"%string) ["remote"; "show"]%string = Ok (0%Z, lit "origin" ++ LF)
  ∧ PyStr.strip (lit "origin" ++ LF) ≠ []
  ∧ (default 0%Z (last_poll p !! Some "/r"%string) + POLLING_INTERVAL < clock w)%Z
  ∧ started (collect w p).1 = 1
  ∧ fetch_future (collect w p).1 = Some (Running Created).
Proof.
  intros w p.
  assert (H1 : repo_root p = Some "/r"%string) by reflexivity.
  assert (H2 : fetch_future p = None) by reflexivity.
  assert (H3 : run w (Some "/r"%string) ["remote"; "show"]%string
               = Ok (0%Z, lit "origin" ++ LF)) by reflexivity.
  assert (H4 : PyStr.strip (lit "origin" ++ LF) ≠ []) by (vm_compute; discriminate).
  assert (H5 : (default 0%Z (last_poll p !! Some "/r"%string) + POLLING_INTERVAL
                < clock w)%Z) by (vm_compute; reflexivity).
  repeat (split; [assumption|]).
  destruct (debounce_single_refresh w p "/r" H1) as (_ & _ & Hstart & _).
  exact (Hstart 0%Z _ H2 H3 H4 H5).
Defined.

(** C3 as stated fails: the remotes listing here is not empty (it is
    one line feed), nothing is pending and the interval has passed, and
    yet the cycle creates no task. *)
Lemma blank_remote_listing_starts_nothing :
  let w := answering ["remote"; "show"]%string (0%Z, LF) (quiet_world 100) in
  let p := watching "/r" None in
  repo_root p = Some "/r"%string
  ∧ fetch_future p = None
  ∧ run w (Some "/r"%string) ["remote"; "show"]%string = Ok (0%Z, LF)
  ∧ LF ≠ []
  ∧ (default 0%Z (last_poll p !! Some "/r"%string) + POLLING_INTERVAL < clock w)%Z
  ∧ started (collect w p).1 = started p
  ∧ fetch_future (collect w p).1 = None.
Proof.
  intros w p. repeat split; try reflexivity. discriminate.
Qed.

Lemma reap_with_changed_root_witness :
  let p := watching "/r" (Some (Running Created)) in
  let wf := quiet_world 50 in
  let p' := run_events p
              [FetchBegins; SetRepoRoot (Some "/r2"%string); FetchExits wf] in
  repo_root p = Some "/r"%string
  ∧ fetch_future p = Some (Running Created)
  ∧ root_of_value (Some "/r2"%string) ≠ Some "/r"%string
  ∧ run wf (Some "/r"%string) ["fetch"; "--quiet"]%string = Ok (0%Z, [])
  ∧ last_poll p' !! Some "/r"%string = Some 50%Z
  ∧ triggered p' = []
  ∧ fetch_future p' = Some (Done (Ok tt)).
Proof.
  intros p wf p'.
  assert (H1 : repo_root p = Some "/r"%string) by reflexivity.
  assert (H2 : fetch_future p = Some (Running Created)) by reflexivity.
  assert (H3 : root_of_value (Some "/r2"%string) ≠ Some "/r"%string)
    by discriminate.
  assert (H4 : run wf (Some "/r"%string) ["fetch"; "--quiet"]%string = Ok (0%Z, []))
    by reflexivity.
  split; [exact H1|split; [exact H2|split; [exact H3|split; [exact H4|]]]].
  destruct (reap_with_changed_root p "/r" (Some "/r2"%string) wf (0%Z, [])
              H1 H2 H3 H4) as (Hl & Ht & Hf & _).
  split; [exact Hl|split; [exact Ht|exact Hf]].
Defined.

(** Setting the root to another text for the same path is no change of
    root: /r/ is the path /r, the registry has the one key, and the
    trigger is called. *)
Lemma same_path_other_text :
  let p := watching "/r" (Some (Running Created)) in
  let p' := run_events p
              [FetchBegins; SetRepoRoot (Some "/r/"%string);
               FetchExits (quiet_world 50)] in
  root_of_value (Some "/r/"%string) = Some "/r"%string
  ∧ repo_root p' = Some "/r"%string
  ∧ triggered p' = ["s1"%string]
  ∧ last_poll p' = {[ Some "/r"%string := 50%Z ]}.
Proof. repeat split; reflexivity. Qed.

Lemma fetch_exit_code_ignored_witness :
  let w := answering ["fetch"; "--quiet"]%string (128%Z, []) (quiet_world 50) in
  let p := watching "/r" (Some (Running (Fetching (Some "/r"%string)))) in
  fetch_future p = Some (Running (Fetching (Some "/r"%string)))
  ∧ run w (Some "/r"%string) ["fetch"; "--quiet"]%string = Ok (128%Z, [])
  ∧ last_poll (_do_fetch_resume w p) !! Some "/r"%string = Some 50%Z
  ∧ (fetch_future (_do_fetch_resume w p) = Some (Done (Ok tt))
     ∨ fetch_future (_do_fetch_resume w p) = Some (Running Triggering)).
Proof.
  intros w p.
  assert (H1 : fetch_future p = Some (Running (Fetching (Some "/r"%string))))
    by reflexivity.
  assert (H2 : run w (Some "/r"%string) ["fetch"; "--quiet"]%string
               = Ok (128%Z, [])) by reflexivity.
  repeat (split; [assumption|]).
  destruct (fetch_exit_code_ignored w p (Some "/r"%string) H1) as (Hexit & _).
  exact (Hexit 128%Z [] H2).
Defined.

(** C5 as stated fails: git fetch exits here with code 128, and the
    cycle that reaps the task succeeds and publishes a snapshot. *)
Lemma failed_fetch_is_reaped_quietly :
  let wf := answering ["fetch"; "--quiet"]%string (128%Z, []) (quiet_world 50) in
  let p := watching "/r" (Some (Running (Fetching (Some "/r"%string)))) in
  let q := run_events p [FetchExits wf; TriggerReturns (Ok tt)] in
  run wf (Some "/r"%string) ["fetch"; "--quiet"]%string = Ok (128%Z, [])
  ∧ fetch_future q = Some (Done (Ok tt))
  ∧ (collect (quiet_world 60) q).2 = Ok tt
  ∧ fetch_future (collect (quiet_world 60) q).1 = None
  ∧ is_Some (repo_status (collect (quiet_world 60) q).1).
Proof.
  intros wf p q. repeat split; try reflexivity. vm_compute. eauto.
Qed.

Lemma collect_failure_keeps_snapshot_witness :
  let w := answering ["stash"; "list"]%string (1%Z, []) (quiet_world 5) in
  let p := (collect (quiet_world 1) (watching "/r" None)).1 in
  repo_root p = Some "/r"%string
  ∧ is_ok (collect_stashes w (Some "/r"%string)) = false
  ∧ is_ok (collect w p).2 = false
  ∧ repo_status (collect w p).1 = repo_status p
  ∧ is_Some (repo_status p).
Proof.
  intros w p.
  assert (H1 : repo_root p = Some "/r"%string) by reflexivity.
  assert (H2 : is_ok (collect_stashes w (Some "/r"%string)) = false) by reflexivity.
  split; [exact H1|split; [exact H2|]].
  destruct (collect_failure_keeps_snapshot w p "/r" H1) as (Hany & _).
  destruct Hany as [Hfail Hkeep]; [auto 10|].
  split; [exact Hfail|split; [exact Hkeep|]].
  vm_compute. eauto.
Defined.

Lemma collect_current_branch_fallback_witness :
  let w := answering ["branch"; "--show-current"]%string (0%Z, [])
             (answering ["rev-parse"; "--short"; "HEAD"]%string
                (0%Z, lit "abc1234" ++ LF) (quiet_world 0)) in
  run w (Some "/r"%string) ["branch"; "--show-current"]%string = Ok (0%Z, [])
  ∧ run w (Some "/r"%string) ["rev-parse"; "--short"; "HEAD"]%string
    = Ok (0%Z, lit "abc1234" ++ LF)
  ∧ ¬ Spec.gives_name 0 []
  ∧ Spec.gives_hash 0
  ∧ collect_current_branch w (Some "/r"%string) = Ok (lit "[abc1234]").
Proof.
  intros w.
  assert (H1 : run w (Some "/r"%string) ["branch"; "--show-current"]%string
               = Ok (0%Z, [])) by reflexivity.
  assert (H2 : run w (Some "/r"%string) ["rev-parse"; "--short"; "HEAD"]%string
               = Ok (0%Z, lit "abc1234" ++ LF)) by reflexivity.
  assert (H3 : ¬ Spec.gives_name 0 []) by (intros [_ ?]; congruence).
  assert (H4 : Spec.gives_hash 0) by reflexivity.
  repeat (split; [assumption|]).
  destruct (collect_current_branch_fallback w (Some "/r"%string) _ _ _ _ H1 H2)
    as (_ & Hhash & _).
  exact (Hhash H3 H4).
Defined.

(** C7 as stated fails: the symbolic-branch query succeeds here (exit
    code 0 and nothing printed, as on a detached HEAD), the hash query
    alone fails, and the collector raises. *)
Lemma branch_raises_after_successful_query :
  let w := answering ["branch"; "--show-current"]%string (0%Z, [])
             (answering ["rev-parse"; "--short"; "HEAD"]%string
                (128%Z, lit "fatal: bad object HEAD") (quiet_world 0)) in
  run w (Some "/r"%string) ["branch"; "--show-current"]%string = Ok (0%Z, [])
  ∧ run w (Some "/r"%string) ["rev-parse"; "--short"; "HEAD"]%string
    = Ok (128%Z, lit "fatal: bad object HEAD")
  ∧ collect_current_branch w (Some "/r"%string)
    = Raise (Exception_ (lit "git branch failed: fatal: bad object HEAD")).
Proof. intros w. repeat split; reflexivity. Qed.

Lemma collect_counts_tolerates_failure_witness :
  let w := answering counts_args (128%Z, lit "fatal: no upstream") (quiet_world 0) in
  run w (Some "/r"%string) counts_args = Ok (128%Z, lit "fatal: no upstream")
  ∧ 128%Z ≠ 0%Z
  ∧ collect_counts w (Some "/r"%string) = Ok (0%Z, 0%Z)
  ∧ run (quiet_world 0) (Some "/r"%string) counts_args
    = Ok (0%Z, [] ++ Spec.numeral (D3 Nil) ++ [0x09%N] ++ Spec.numeral (D1 Nil) ++ LF)
  ∧ collect_counts (quiet_world 0) (Some "/r"%string) = Ok (3%Z, 1%Z).
Proof.
  intros w.
  assert (H1 : run w (Some "/r"%string) counts_args
               = Ok (128%Z, lit "fatal: no upstream")) by reflexivity.
  assert (H2 : 128%Z ≠ 0%Z) by discriminate.
  assert (H3 : run (quiet_world 0) (Some "/r"%string) counts_args
               = Ok (0%Z, [] ++ Spec.numeral (D3 Nil) ++ [0x09%N]
                          ++ Spec.numeral (D1 Nil) ++ LF)) by reflexivity.
  split; [exact H1|split; [exact H2|split; [|split; [exact H3|]]]].
  - destruct (collect_counts_tolerates_failure w (Some "/r"%string) _ _ H1)
      as (Hfail & _).
    exact (Hfail H2).
  - destruct (collect_counts_tolerates_failure (quiet_world 0) (Some "/r"%string)
                _ _ H3) as (_ & Hparse).
    apply (Hparse (D3 Nil) (D1 Nil) [] [0x09%N] LF); try reflexivity;
      try discriminate; repeat constructor.
Defined.

Lemma reap_stamps_current_root_witness :
  let w := quiet_world 70 in
  let p := watching "/r2" (Some (Done (Ok tt))) in
  repo_root p = Some "/r2"%string
  ∧ fetch_future p = Some (Done (Ok tt))
  ∧ last_poll (collect w p).1 !! Some "/r2"%string = Some 70%Z
  ∧ fetch_future (collect w p).1 = None.
Proof.
  intros w p.
  assert (H1 : repo_root p = Some "/r2"%string) by reflexivity.
  assert (H2 : fetch_future p = Some (Done (Ok tt))) by reflexivity.
  repeat (split; [assumption|]).
  destruct (reap_stamps_current_root w p "/r2" H1 H2) as (Hl & Hf & _).
  split; [exact Hl|exact Hf].
Defined.

Lemma read_first_line_int_cases_witness :
  let stalled := with_files stalled_files (quiet_world 5) in
  let bare := with_files bare_files (quiet_world 5) in
  let garbled := with_files garbled_files (quiet_world 5) in
  let p := watching "/r" None in
  (files stalled !! "/r/.git/rebase-merge/msgnum"%string = Some (File [])
   ∧ _read_first_line_int stalled "/r/.git/rebase-merge/msgnum" = Ok None
   ∧ collect_repo_state stalled "/r"
     = Ok {| state := Some "REBASE-m"%string; step := None; total := Some 10%Z |}
   ∧ is_ok (collect stalled p).2 = true
   ∧ ∃ status, repo_status (collect stalled p).1 = Some status
               ∧ RepoStatus.step status = None
               ∧ RepoStatus.total status = Some 10%Z)
  ∧ (files bare !! "/r/.git/rebase-merge/msgnum"%string = None
     ∧ _read_first_line_int bare "/r/.git/rebase-merge/msgnum"
       = Raise FileNotFoundError
     ∧ is_ok (collect bare p).2 = false)
  ∧ (PyInt.int (PyStr.strip (lit "three" ++ LF)) = Raise ValueError
     ∧ _read_first_line_int garbled "/r/.git/rebase-merge/msgnum"
       = Raise ValueError
     ∧ is_ok (collect garbled p).2 = false).
Proof.
  intros stalled bare garbled p.
  destruct (read_first_line_int_cases stalled "/r")
    as (_ & Hempty & _ & _ & _ & _ & Hpub & _).
  destruct (read_first_line_int_cases bare "/r")
    as (_ & _ & Hmissing & _ & _ & _ & _ & Hfail & _).
  destruct (read_first_line_int_cases garbled "/r")
    as (_ & _ & _ & Hbad & _ & _ & _ & Hfail' & _).
  assert (Hst : collect_repo_state stalled "/r"
                = Ok {| state := Some "REBASE-m"%string; step := None;
                        total := Some 10%Z |}) by reflexivity.
  split; [|split].
  - split; [reflexivity|]. split; [by apply Hempty|]. split; [exact Hst|].
    split; [reflexivity|].
    exact (Hpub p _ eq_refl Hst eq_refl).
  - split; [reflexivity|]. split; [by apply Hmissing|].
    apply (Hfail p eq_refl eq_refl). by left.
  - split; [reflexivity|].
    split; [by apply (Hbad _ (lit "three" ++ LF) (lit "three" ++ LF))|].
    apply (Hfail' p eq_refl eq_refl). by left.
Defined.

(** * Further properties of the code *)

(** ** Listings *)

Section ListingFacts.
Import PyStr.

Lemma splitlines_from_break_free l cur s :
  Listing.break_free l →
  splitlines_from cur (l ++ s) = splitlines_from (rev l ++ cur) s.
Proof.
  intros Hl. revert cur. induction Hl as [|c l Hc _ IH]; intros cur; [done|].
  cbn [app splitlines_from]. rewrite Hc, IH.
  cbn [rev]. by rewrite <- app_assoc.
Qed.

Lemma splitlines_from_terminator crlf cur s :
  splitlines_from cur (Listing.terminator crlf ++ s)
  = rev cur :: splitlines_from [] s.
Proof. destruct crlf, s; reflexivity. Qed.

(** Splitting the text of a listing gives back its entries. *)
Lemma splitlines_render (entries : list (str * bool)) :
  Forall (fun e => Listing.break_free e.1) entries →
  splitlines (Listing.render entries) = map fst entries.
Proof.
  unfold splitlines.
  induction 1 as [|[l crlf] entries Hl _ IH]; [done|].
  cbn [Listing.render flat_map map fst snd]. rewrite <- app_assoc.
  rewrite splitlines_from_break_free by done.
  rewrite splitlines_from_terminator, app_nil_r, rev_involutive.
  f_equal. exact IH.
Qed.

End ListingFacts.

(** ** The counts and the stashes *)

Section CountFacts.

Lemma Forall_nonempty_iff (lines : list str) :
  Forall (fun l => l ≠ []) lines ↔ [] ∉ lines.
Proof.
  rewrite Forall_forall. split.
  - intros Hall Hin. by apply (Hall [] Hin).
  - intros Hnot l Hin ->. done.
Qed.

Lemma tally_perm (lines lines' : list str) :
  lines ≡ₚ lines' → Spec.tally lines = Spec.tally lines'.
Proof.
  intros Hp.
  assert (Hk : ∀ k, Spec.how_many k lines = Spec.how_many k lines').
  { intros k. unfold Spec.how_many. by rewrite Hp. }
  unfold Spec.tally. rewrite !Hk. f_equal.
  destruct lines, lines'; try done.
  - by apply Permutation_nil_cons in Hp.
  - symmetry in Hp. by apply Permutation_nil_cons in Hp.
Qed.

(** The loop over the lines does not depend on their order. *)
Lemma count_lines_perm (lines lines' : list str) c :
  lines ≡ₚ lines' → count_lines c lines = count_lines c lines'.
Proof.
  intros Hp. destruct (decide ([] ∈ lines)) as [Hin|Hnot].
  - rewrite !count_lines_empty_line; [done| |done]. by rewrite <- Hp.
  - rewrite !count_lines_tally.
    + by rewrite (tally_perm _ _ Hp).
    + apply Forall_nonempty_iff. by rewrite <- Hp.
    + by apply Forall_nonempty_iff.
Qed.

(** Each line falls in one class. *)
Lemma how_many_total (lines : list str) :
  Spec.how_many Spec.Untracked lines + Spec.how_many Spec.StagedAndModified lines
  + Spec.how_many Spec.Modified lines + Spec.how_many Spec.Deleted lines
  + Spec.how_many Spec.Staged lines + Spec.how_many Spec.Unlisted lines
  = length lines.
Proof.
  induction lines as [|l lines IH]; [done|].
  rewrite !(how_many_cons _ l lines). cbn [length]. rewrite <- IH.
  assert (∀ k, Spec.how_many k [l] = if decide (Spec.classify l = k) then 1 else 0)
    as Hone.
  { intros k. unfold Spec.how_many. cbn [filter list_filter].
    by case_decide. }
  rewrite !Hone.
  destruct (Spec.classify l); repeat case_decide; try done; lia.
Qed.

Lemma classify_unknown_column c rest :
  c ∉ Listing.known_columns → Spec.classify (c :: rest) = Spec.Unlisted.
Proof.
  intros Hc. unfold Listing.known_columns in Hc. cbn [map] in Hc.
  rewrite !not_elem_of_cons in Hc. destruct Hc as (Hq & Ha & Hm & Hd & Hs & _).
  unfold Spec.classify, Spec.first_column_in.
  repeat case_bool_decide; try done.
  all: exfalso.
  all: try (cbn in *; congruence).
  cbn [map] in *.
  repeat match goal with
         | H : _ ∈ _ :: _ |- _ => apply elem_of_cons in H as [H|H]
         | H : _ ∈ [] |- _ => by apply elem_of_nil in H
         end; done.
Qed.

End CountFacts.

Section CountExtras.

(** X1. The stash collector raises [Exception] with the command's
    output attached when git stash exits with a nonzero code; when it
    exits with 0 and prints a listing of entries, each ended by LF or
    CR LF, the count is the number of entries. *)
Theorem collect_stashes_counts_entries (w : world) (root : option Path)
    (rc : Z) (stdout : str) :
  run w root ["stash"; "list"]%string = Ok (rc, stdout) →
  (rc ≠ 0%Z →
   collect_stashes w root = Raise (Exception_ (lit "git stash failed: " ++ stdout)))
  ∧ (∀ entries : list (str * bool),
       rc = 0%Z → stdout = Listing.render entries →
       Forall (fun e => Listing.break_free e.1) entries →
       collect_stashes w root = Ok (length entries)).
Proof.
  intros Hrun. unfold collect_stashes, _run_git_command. rewrite Hrun.
  cbn [mbind result_bind]. split.
  - intros Hrc. by destruct (Z.eqb_spec rc 0).
  - intros entries -> -> Hall. cbn [Z.eqb negb].
    by rewrite splitlines_render, length_map.
Qed.

(** X2. The counts depend on the entries of the status listing
    only, not on their order nor on how the lines end (LF or CR LF):
    two listings with the same entries give the same result, be it
    counts or a failure. *)
Theorem collect_repo_counts_order (w w' : world) (root root' : option Path)
    (entries entries' : list (str * bool)) :
  run w root ["status"; "--porcelain"; "--ignore-submodules"; "-unormal"]%string
    = Ok (0%Z, Listing.render entries) →
  run w' root' ["status"; "--porcelain"; "--ignore-submodules"; "-unormal"]%string
    = Ok (0%Z, Listing.render entries') →
  Forall (fun e => Listing.break_free e.1) entries →
  Forall (fun e => Listing.break_free e.1) entries' →
  entries.*1 ≡ₚ entries'.*1 →
  collect_repo_counts w root = collect_repo_counts w' root'.
Proof.
  intros Hrun Hrun' Hall Hall' Hp.
  unfold collect_repo_counts, _run_git_command. rewrite Hrun, Hrun'.
  cbn [mbind result_bind Z.eqb negb].
  rewrite !splitlines_render by done.
  by apply count_lines_perm.
Qed.

(** X3. How the counts collector fails: a nonzero exit code raises
    [Exception] with the command's output attached; with exit code 0
    it raises IndexError when the output has an empty line, and it
    succeeds when it has none. *)
Theorem collect_repo_counts_failure (w : world) (root : option Path)
    (rc : Z) (stdout : str) :
  run w root ["status"; "--porcelain"; "--ignore-submodules"; "-unormal"]%string
    = Ok (rc, stdout) →
  (rc ≠ 0%Z →
   collect_repo_counts w root
   = Raise (Exception_ (lit "git status failed: " ++ stdout)))
  ∧ (rc = 0%Z → [] ∈ PyStr.splitlines stdout →
     collect_repo_counts w root = Raise IndexError)
  ∧ (rc = 0%Z → [] ∉ PyStr.splitlines stdout →
     is_ok (collect_repo_counts w root) = true).
Proof.
  intros Hrun. unfold collect_repo_counts, _run_git_command. rewrite Hrun.
  cbn [mbind result_bind]. split; [|split].
  - intros Hrc. by destruct (Z.eqb_spec rc 0).
  - intros -> Hin. by apply count_lines_empty_line.
  - intros -> Hnot. cbn [Z.eqb negb].
    rewrite count_lines_tally; [done|]. by apply Forall_nonempty_iff.
Qed.

(** X4. Counts that the collector returns are bounded by the number
    of lines of the listing: untracked, modified and deleted lines are
    distinct lines, and so are untracked, staged and deleted lines; and
    a tree that is not dirty has zero counts and an empty listing. *)
Theorem collect_repo_counts_bounds (w : world) (root : option Path)
    (stdout : str) (c : repo_counts) :
  run w root ["status"; "--porcelain"; "--ignore-submodules"; "-unormal"]%string
    = Ok (0%Z, stdout) →
  collect_repo_counts w root = Ok c →
  let n := length (PyStr.splitlines stdout) in
  untracked c + modified c + deleted c ≤ n
  ∧ untracked c + staged c + deleted c ≤ n
  ∧ (dirty c = false → stdout = [] ∧ c = no_counts).
Proof.
  intros Hrun Hc n.
  destruct (decide ([] ∈ PyStr.splitlines stdout)) as [Hin|Hnot].
  all: unfold collect_repo_counts, _run_git_command in Hc; rewrite Hrun in Hc.
  all: cbn [mbind result_bind Z.eqb negb] in Hc.
  { rewrite count_lines_empty_line in Hc by done. discriminate. }
  rewrite count_lines_tally in Hc by by apply Forall_nonempty_iff.
  injection Hc as <-.
  pose proof (how_many_total (PyStr.splitlines stdout)) as Ht. fold n in Ht.
  cbn. split; [lia|split; [lia|]].
  destruct (PyStr.splitlines stdout) eqn:E; [|discriminate].
  intros _. apply splitlines_nil in E as ->. done.
Qed.

(** X5. Lines whose first column is none of [?], A, M, D and blank (a
    rename, a copy, an unmerged or an ignored path) are counted
    nowhere: a listing made of such lines gives four zero counts, and
    dirty is true as soon as there is a line. *)
Theorem collect_repo_counts_unlisted (w : world) (root : option Path)
    (stdout : str) :
  run w root ["status"; "--porcelain"; "--ignore-submodules"; "-unormal"]%string
    = Ok (0%Z, stdout) →
  Forall (fun l => ∃ c rest, l = c :: rest ∧ c ∉ Listing.known_columns)
    (PyStr.splitlines stdout) →
  collect_repo_counts w root
  = Ok {| dirty := negb (bool_decide (stdout = []));
          untracked := 0; modified := 0; staged := 0; deleted := 0 |}.
Proof.
  intros Hrun Hall.
  unfold collect_repo_counts, _run_git_command. rewrite Hrun.
  cbn [mbind result_bind Z.eqb negb].
  rewrite count_lines_tally.
  2:{ eapply Forall_impl; [exact Hall|]. by intros l (c & rest & -> & _). }
  assert (Hk : ∀ k, k ≠ Spec.Unlisted →
                    Spec.how_many k (PyStr.splitlines stdout) = 0).
  { intros k Hne. induction Hall as [|l ls (c & rest & -> & Hc) _ IH]; [done|].
    rewrite how_many_cons, IH. unfold Spec.how_many. cbn [filter list_filter].
    rewrite classify_unknown_column by done. by case_decide. }
  unfold add_counts, Spec.tally, no_counts. cbn.
  rewrite !Hk by done. do 2 f_equal.
  pose proof (splitlines_nil stdout) as Hnil.
  destruct (PyStr.splitlines stdout); case_bool_decide; try done.
  - by destruct Hnil as [Hnil _]; specialize (Hnil eq_refl).
  - by destruct Hnil as [_ Hnil]; specialize (Hnil ltac:(done)).
Qed.

End CountExtras.

(** ** Trimming and numbers *)

Section TrimFacts.
Context `{PyRuntime}.
Import PyStr.

Lemma lstrip_head s :
  match lstrip s with [] => True | c :: _ => is_space c = false end.
Proof.
  induction s as [|c s IH]; [done|]. cbn [lstrip].
  destruct (is_space c) eqn:E; [exact IH|exact E].
Qed.

Lemma lstrip_keeps_last x c :
  is_space c = false → ∃ y, lstrip (x ++ [c]) = y ++ [c].
Proof.
  intros Hc. induction x as [|d x IH].
  - exists []. cbn. by rewrite Hc.
  - cbn [app lstrip]. destruct (is_space d); [exact IH|].
    by exists (d :: x).
Qed.

Lemma strip_trimmed s : Listing.trimmed (strip s).
Proof.
  unfold Listing.trimmed, strip, rstrip.
  pose proof (lstrip_head s) as Hhead.
  set (t := lstrip s) in *.
  split; [|rewrite rev_involutive; apply lstrip_head].
  destruct t as [|c t]; [done|].
  cbn [rev]. destruct (lstrip_keeps_last (rev t) c Hhead) as [y ->].
  rewrite rev_app_distr. by cbn.
Qed.

Lemma lstrip_app x y :
  lstrip (x ++ y) = match lstrip x with [] => lstrip y | _ => lstrip x ++ y end.
Proof.
  induction x as [|c x IH]; [done|]. cbn [app lstrip].
  destruct (is_space c); [exact IH|done].
Qed.

(** A blank at the end does not change what is left after trimming. *)
Lemma strip_blank_end s c : is_space c = true → strip (s ++ [c]) = strip s.
Proof.
  intros Hc. unfold strip. rewrite lstrip_app.
  destruct (lstrip s) as [|d t] eqn:E.
  - cbn. by rewrite Hc.
  - unfold rstrip. rewrite rev_app_distr. cbn [rev app lstrip]. by rewrite Hc.
Qed.

Lemma int_raises_ValueError s e : PyInt.int s = Raise e → e = ValueError.
Proof.
  unfold PyInt.int.
  destruct (PyInt.skip_spaces _) as [|c a]; [by intros [= <-]|].
  repeat case_match; by intros [= <-].
Qed.

End TrimFacts.

Section TextExtras.
Context `{PyRuntime}.

(** X6. The branch the collector returns is either a text without
    white space at its ends, or such a text between square brackets. *)
Theorem collect_current_branch_shape (w : world) (root : option Path) (b : str) :
  collect_current_branch w root = Ok b →
  Listing.trimmed b
  ∨ ∃ h, b = lit "[" ++ h ++ lit "]" ∧ Listing.trimmed h.
Proof.
  unfold collect_current_branch, _run_git_command.
  destruct (run w root ["branch"; "--show-current"]%string) as [[rc1 out1]|];
    [|done].
  cbn [mbind result_bind].
  destruct ((rc1 =? 0)%Z && negb (bool_decide (out1 = []))).
  { intros [= <-]. left. apply strip_trimmed. }
  destruct (run w root ["rev-parse"; "--short"; "HEAD"]%string) as [[rc2 out2]|];
    [|done].
  cbn [mbind result_bind]. destruct (rc2 =? 0)%Z; [|done].
  intros [= <-]. right. eexists. split; [reflexivity|apply strip_trimmed].
Qed.

(** X7. When the symbolic-branch query exits with 0 and prints only
    white space (at least one character), the collector returns the
    empty name; it does not fall back to the hash, and the second query
    is not consulted. *)
Theorem collect_current_branch_blank_name (w : world) (root : option Path)
    (stdout : str) :
  run w root ["branch"; "--show-current"]%string = Ok (0%Z, stdout) →
  stdout ≠ [] → Spec.blank stdout →
  collect_current_branch w root = Ok [].
Proof.
  intros Hrun Hne Hblank. unfold collect_current_branch, _run_git_command.
  rewrite Hrun. cbn [mbind result_bind Z.eqb].
  rewrite bool_decide_eq_false_2 by done. cbn [negb andb].
  unfold PyStr.strip. by rewrite lstrip_blank.
Qed.

(** X8. With exit code 0 the ahead/behind collector needs exactly two
    words that [int] takes: the result is that of reading the two
    words when the output splits in two, and ValueError for any other
    number of words; and whatever the exit code, the only exception the
    collector raises itself is ValueError. *)
Theorem collect_counts_zero_exit (w : world) (root : option Path)
    (rc : Z) (stdout : str) :
  run w root ["rev-list"; "--left-right"; "--count"; "HEAD...@{u}"]%string
    = Ok (rc, stdout) →
  (rc = 0%Z →
   collect_counts w root =
     match PyStr.split stdout with
     | [a; b] => push ← PyInt.int a; pull ← PyInt.int b; Ok (push, pull)
     | _ => Raise ValueError
     end)
  ∧ (∀ e, collect_counts w root = Raise e → rc = 0%Z ∧ e = ValueError).
Proof.
  intros Hrun.
  assert (Hzero : rc = 0%Z →
    collect_counts w root =
      match PyStr.split stdout with
      | [a; b] => push ← PyInt.int a; pull ← PyInt.int b; Ok (push, pull)
      | _ => Raise ValueError
      end).
  { intros ->. unfold collect_counts, _run_git_command. rewrite Hrun.
    cbn [mbind result_bind Z.eqb].
    destruct (PyStr.split stdout) as [|a [|b [|c rest]]]; [done| |done|].
    - destruct (PyInt.int a) as [|e] eqn:Ea; cbn [mbind result_bind]; [done|].
      by rewrite (int_raises_ValueError _ _ Ea).
    - destruct (PyInt.int a) as [|e] eqn:Ea; cbn [mbind result_bind];
        [|by rewrite (int_raises_ValueError _ _ Ea)].
      destruct (PyInt.int b) as [|e] eqn:Eb; cbn [mbind result_bind];
        [|by rewrite (int_raises_ValueError _ _ Eb)].
      destruct (PyInt.int c) as [|e] eqn:Ec; cbn [mbind result_bind]; [done|].
      by rewrite (int_raises_ValueError _ _ Ec). }
  split; [exact Hzero|].
  intros e He. destruct (Z.eq_dec rc 0%Z) as [->|Hrc].
  - split; [done|]. rewrite Hzero in He by done.
    destruct (PyStr.split stdout) as [|a [|b [|c rest]]]; try by injection He as <-.
    destruct (PyInt.int a) as [|ea] eqn:Ea; cbn [mbind result_bind] in He.
    + destruct (PyInt.int b) as [|eb] eqn:Eb; cbn [mbind result_bind] in He; [done|].
      injection He as <-. by apply int_raises_ValueError in Eb.
    + injection He as <-. by apply int_raises_ValueError in Ea.
  - unfold collect_counts, _run_git_command in He. rewrite Hrun in He.
    cbn [mbind result_bind] in He. by destruct (Z.eqb_spec rc 0).
Qed.

(** X9. Reading a numeric marker file looks at the first line only:
    when the text begins with a line free of CR and LF that is ended by
    CR or LF (or that is the whole text, and not empty), the result is
    [int] of that line with the white space trimmed, whatever follows. *)
Theorem read_first_line_only (w : world) (f : Path) (line tail : str) :
  files w !! f = Some (File (line ++ tail)) →
  Forall (fun c => c ≠ 0x0A%N ∧ c ≠ 0x0D%N) line →
  (tail = [] ∧ line ≠ [])
  ∨ (∃ c rest, tail = c :: rest ∧ (c = 0x0A%N ∨ c = 0x0D%N)) →
  _read_first_line_int w f = (n ← PyInt.int (PyStr.strip line); Ok (Some n)).
Proof.
  intros Hf Hline Htail. unfold _read_first_line_int. rewrite Hf.
  assert (readline (line ++ tail) = Some (first_line (line ++ tail))) as ->.
  { unfold readline. destruct (line ++ tail) eqn:E; [|done].
    apply app_eq_nil in E as [-> ->].
    destruct Htail as [[_ ?]|(? & ? & ? & _)]; done. }
  rewrite first_line_app by done.
  destruct Htail as [[-> _]|(c & rest & -> & Hc)].
  - cbn [first_line]. by rewrite app_nil_r.
  - assert (first_line (c :: rest) = [0x0A%N]) as ->.
    { by destruct Hc as [-> | ->]. }
    by rewrite strip_blank_end.
Qed.

End TextExtras.

(** ** The decoder *)

Section DecoderExtras.
Context `{PyRuntime}.

Lemma bind2_ok {A B C : Type} (r1 : result A) (r2 : result B)
    (k : A → B → C) (c : C) :
  (a ← r1; b ← r2; Ok (k a b)) = Ok c →
  ∃ a b, r1 = Ok a ∧ r2 = Ok b ∧ c = k a b.
Proof.
  destruct r1 as [a|]; [|done]. destruct r2 as [b|]; [|done].
  cbn [mbind result_bind]. intros [= <-]. by exists a, b.
Qed.

(** X11. What the decoder returns: the state is null or one of nine
    names; step and total are null unless the state is one of the five
    rebase and am states; and a null state has null step and total. *)
Theorem collect_repo_state_range (w : world) (root : Path) (st : repo_state) :
  collect_repo_state w root = Ok st →
  match state st with
  | None => step st = None ∧ total st = None
  | Some s =>
      s ∈ Listing.rebase_states
      ∨ (s ∈ Listing.plain_states ∧ step st = None ∧ total st = None)
  end.
Proof.
  intros Hst.
  destruct (is_dir (files w) (path_join (path_join root ".git") "rebase-merge"))
    eqn:Hm.
  { rewrite (merge_case w root Hm) in Hst.
    apply bind2_ok in Hst as (a & b & _ & _ & ->).
    cbn. left. destruct (exists_ _ _); set_solver. }
  destruct (is_dir (files w) (path_join (path_join root ".git") "rebase-apply"))
    eqn:Ha.
  { rewrite (apply_case w root Hm Ha) in Hst.
    apply bind2_ok in Hst as (a & b & _ & _ & ->).
    cbn. left. repeat destruct (exists_ _ _); set_solver. }
  unfold collect_repo_state in Hst. rewrite Hm, Ha in Hst.
  injection Hst as <-. cbn.
  repeat (destruct (exists_ _ _); [right; split; [set_solver|done]|]).
  done.
Qed.

(** X12. During a rebase-merge the decoder reads nothing but the
    directory, its interactive marker and its msgnum and end files: two
    worlds that agree on these four paths give the same result,
    whatever else their repositories hold. *)
Theorem collect_repo_state_merge_frame (w w' : world) (root : Path) :
  let merge_dir := path_join (path_join root ".git") "rebase-merge" in
  is_dir (files w) merge_dir = true →
  (∀ f, f ∈ [merge_dir; path_join merge_dir "interactive";
             path_join merge_dir "msgnum"; path_join merge_dir "end"] →
        files w' !! f = files w !! f) →
  collect_repo_state w' root = collect_repo_state w root.
Proof.
  intros merge_dir Hd Hagree.
  assert (Hd' : is_dir (files w') merge_dir = true).
  { unfold is_dir in *. rewrite Hagree; [done|set_solver]. }
  rewrite (merge_case w root Hd), (merge_case w' root Hd'). fold merge_dir.
  unfold _read_first_line_int, exists_.
  rewrite !Hagree by set_solver. done.
Qed.

End DecoderExtras.

(** ** Cycles *)

Section CycleExtras.
Context `{PyRuntime}.

(** X13. With a root set, a cycle succeeds exactly when its first
    part does (the finished refresh it finds, if any, ended without
    exception; or, with nothing pending, git remote show could be run)
    and each of the five collectors succeeds. *)
Theorem collect_succeeds_iff (w : world) (p : process) (root : Path) :
  repo_root p = Some root →
  is_ok (collect w p).2
  = match fetch_future p with
    | Some (Done (Raise _)) => false
    | Some _ => true
    | None => is_ok (run w (Some root) ["remote"; "show"]%string)
    end
    && is_ok (collect_counts w (Some root))
    && is_ok (collect_current_branch w (Some root))
    && is_ok (collect_repo_counts w (Some root))
    && is_ok (collect_repo_state w root)
    && is_ok (collect_stashes w (Some root)).
Proof.
  intros Hroot. rewrite (collect_result w p root Hroot).
  assert (is_ok (check_fetch w root p).2
          = match fetch_future p with
            | Some (Done (Raise _)) => false
            | Some _ => true
            | None => is_ok (run w (Some root) ["remote"; "show"]%string)
            end) as <-.
  { unfold check_fetch.
    destruct (fetch_future p) as [[st|[[]|e]]|]; try done.
    destruct (run w _ _) as [[rc stdout]|e]; [|done].
    case_bool_decide; [done|].
    destruct (setdefault _ _ _) as [m last]. by case_match. }
  pose proof (gather_ok_iff w root) as Hg.
  rewrite <- !andb_assoc. rewrite <- !andb_assoc in Hg. rewrite <- Hg.
  destruct (check_fetch w root p).2 as [[]|]; [|done].
  by destruct (gather w root).
Qed.

Lemma collect_keeps_fields (w : world) (p : process) :
  repo_root (collect w p).1 = repo_root p
  ∧ session_id (collect w p).1 = session_id p
  ∧ update_trigger (collect w p).1 = update_trigger p
  ∧ triggered (collect w p).1 = triggered p.
Proof.
  destruct (repo_root p) as [root|] eqn:Hroot.
  - destruct (collect_after_check w p root Hroot) as [status ->]. cbn.
    rewrite <- Hroot. unfold check_fetch.
    destruct (fetch_future p) as [[st|[[]|e]]|]; try done.
    destruct (run w _ _) as [[rc stdout]|e]; [|done].
    case_bool_decide; [done|].
    destruct (setdefault _ _ _) as [m last]. by case_match.
  - unfold collect. rewrite Hroot. cbn. by rewrite Hroot.
Qed.

(** X14. Over any run of cycles, whatever the commands print and
    whether the cycles succeed or fail, the root, the session
    identifier and the trigger are what they were, and the trigger has
    not been called. *)
Theorem cycles_frame (p : process) (ws : list world) :
  repo_root (run_events p (Cycle <$> ws)) = repo_root p
  ∧ session_id (run_events p (Cycle <$> ws)) = session_id p
  ∧ update_trigger (run_events p (Cycle <$> ws)) = update_trigger p
  ∧ triggered (run_events p (Cycle <$> ws)) = triggered p.
Proof.
  revert p. induction ws as [|w ws IH]; intros p; [done|].
  change (run_events p (Cycle <$> w :: ws))
    with (run_events (collect w p).1 (Cycle <$> ws)).
  destruct (IH (collect w p).1) as (-> & -> & -> & ->).
  apply collect_keeps_fields.
Qed.

(** X15. While the refresh is still running, cycles leave the slot,
    the registry and the counts of tasks as they are, however many of
    them run and whatever the commands print; and the outcome of such
    a cycle is that of the collectors alone. *)
Theorem cycles_while_running (p : process) (root : Path) (st : fetch_stage)
    (ws : list world) :
  repo_root p = Some root →
  fetch_future p = Some (Running st) →
  fetch_future (run_events p (Cycle <$> ws)) = Some (Running st)
  ∧ last_poll (run_events p (Cycle <$> ws)) = last_poll p
  ∧ started (run_events p (Cycle <$> ws)) = started p
  ∧ reaped (run_events p (Cycle <$> ws)) = reaped p
  ∧ Forall (fun w => is_ok (collect w p).2 = is_ok (gather w root)) ws.
Proof.
  intros Hroot Hf.
  assert (Hone : ∀ q w, repo_root q = Some root →
            fetch_future q = Some (Running st) →
            collect w q =
              match gather w root with
              | Ok status => (set_repo_status (Some status) q, Ok tt)
              | Raise e => (q, Raise e)
              end).
  { intros q w Hq Hfq. unfold collect, check_fetch. by rewrite Hq, Hfq. }
  assert (Hrun : ∀ q, repo_root q = Some root →
            fetch_future q = Some (Running st) →
            fetch_future (run_events q (Cycle <$> ws)) = Some (Running st)
            ∧ last_poll (run_events q (Cycle <$> ws)) = last_poll q
            ∧ started (run_events q (Cycle <$> ws)) = started q
            ∧ reaped (run_events q (Cycle <$> ws)) = reaped q).
  { induction ws as [|w ws IH]; intros q Hq Hfq; [done|].
    change (run_events q (Cycle <$> w :: ws))
      with (run_events (collect w q).1 (Cycle <$> ws)).
    rewrite (Hone q w Hq Hfq).
    destruct (gather w root) as [a|e]; cbn [fst].
    - exact (IH (set_repo_status (Some a) q) Hq Hfq).
    - exact (IH q Hq Hfq). }
  destruct (Hrun p Hroot Hf) as (? & ? & ? & ?).
  repeat (split; [done|]).
  apply Forall_forall. intros w _. rewrite (Hone p w Hroot Hf).
  by destruct (gather w root).
Qed.

Lemma react_keeps_keys (p : process) (e : event) (k : option Path) :
  is_Some (last_poll p !! k) → is_Some (last_poll (react p e) !! k).
Proof.
  intros Hk.
  assert (Hins : ∀ k' t, is_Some (<[k' := t]> (last_poll p) !! k)).
  { intros k' t. rewrite lookup_insert. by case_decide. }
  destruct e as [value|w| |w|r]; cbn.
  - done.
  - destruct (repo_root p) as [root|] eqn:Hroot.
    + destruct (collect_after_check w p root Hroot) as [status ->]. cbn.
      unfold check_fetch.
      destruct (fetch_future p) as [[st|[[]|e]]|]; try done; try apply Hins.
      destruct (run w _ _) as [[rc stdout]|e]; [|done].
      case_bool_decide; [done|].
      unfold setdefault.
      destruct (last_poll p !! Some root); case_match; cbn; try done; apply Hins.
    + unfold collect. by rewrite Hroot.
  - unfold _do_fetch_begin. by destruct (fetch_future p) as [[[]|]|].
  - unfold _do_fetch_resume.
    destruct (fetch_future p) as [[[|cur|]|]|]; try done.
    destruct (run w _ _); [|done]. cbn.
    repeat case_match; cbn; apply Hins.
  - unfold _do_fetch_end. by destruct (fetch_future p) as [[[]|]|].
Qed.

(** X16. Entries of the registry are never removed: a root that has a
    timestamp keeps one through any run of the poller. *)
Theorem registry_keeps_keys (p : process) (es : list event) (k : option Path) :
  is_Some (last_poll p !! k) →
  is_Some (last_poll (run_events p es) !! k).
Proof.
  revert p. induction es as [|e es IH]; intros p Hk; [done|].
  cbn. apply IH. by apply react_keeps_keys.
Qed.

(** X17. A cycle with nothing pending does not stamp the registry,
    even when it starts a refresh: with a blank listing of remotes the
    registry is untouched; otherwise the root keeps the timestamp it
    had, or gets 0 when it had none, and the other entries stay. *)
Theorem collect_idle_registry (w : world) (p : process) (root : Path)
    (rc : Z) (stdout : str) :
  repo_root p = Some root →
  fetch_future p = None →
  run w (Some root) ["remote"; "show"]%string = Ok (rc, stdout) →
  let p' := (collect w p).1 in
  (PyStr.strip stdout = [] → last_poll p' = last_poll p)
  ∧ (PyStr.strip stdout ≠ [] →
     last_poll p' !! Some root = Some (default 0%Z (last_poll p !! Some root))
     ∧ ∀ k, k ≠ Some root → last_poll p' !! k = last_poll p !! k).
Proof.
  intros Hroot Hf Hrun p'. subst p'.
  destruct (collect_after_check w p root Hroot) as [status ->]. cbn.
  unfold check_fetch. rewrite Hf, Hrun. split.
  - intros ->. by rewrite bool_decide_eq_true_2.
  - intros Hne. rewrite bool_decide_eq_false_2 by done.
    unfold setdefault.
    destruct (last_poll p !! Some root) as [t|] eqn:E.
    + case_match; cbn; by rewrite E.
    + case_match; cbn; (split; [by rewrite lookup_insert_eq|]);
        intros k Hk; by rewrite lookup_insert_ne.
Qed.

(** X18. A refresh that ended with an exception is never cleared:
    every later cycle, while a root is set, raises that exception and
    leaves the poller exactly as it was, so no snapshot is published
    and no refresh is started any more. *)
Theorem failed_refresh_sticks (p : process) (root : Path) (e : exn)
    (ws : list world) :
  repo_root p = Some root →
  fetch_future p = Some (Done (Raise e)) →
  run_events p (Cycle <$> ws) = p
  ∧ Forall (fun w => collect w p = (p, Raise e)) ws.
Proof.
  intros Hroot Hf.
  assert (Hone : ∀ w, collect w p = (p, Raise e)).
  { intros w. unfold collect, check_fetch. by rewrite Hroot, Hf. }
  split.
  - induction ws as [|w ws IH]; [done|].
    cbn. by rewrite Hone.
  - by apply Forall_forall.
Qed.

End CycleExtras.

Section RoundExtras.
Context `{PyRuntime}.

(** X19. A whole refresh with the root unchanged: the task begins,
    git fetch ends (whatever its exit code), the trigger, if there is
    one, is called once with the session identifier and returns, and
    the next cycle reaps the task.  The slot is then empty, one more
    task is reaped, and the registry's timestamp for the root is the
    time of the reap, not that of the end of the fetch. *)
Theorem refresh_round (p : process) (R : Path) (wf w : world) (o : Z * str) :
  repo_root p = Some R →
  fetch_future p = Some (Running Created) →
  run wf (Some R) ["fetch"; "--quiet"]%string = Ok o →
  let es := [FetchBegins; FetchExits wf]
            ++ (if update_trigger p then [TriggerReturns (Ok tt)] else [])
            ++ [Cycle w] in
  let p' := run_events p es in
  triggered p' = triggered p ++ (if update_trigger p then [session_id p] else [])
  ∧ last_poll p' !! Some R = Some (clock w)
  ∧ fetch_future p' = None
  ∧ reaped p' = S (reaped p)
  ∧ started p' = started p.
Proof.
  intros Hroot Hf Hrun es p'. subst p' es.
  unfold run_events. rewrite !fold_left_app. cbn [fold_left react].
  unfold _do_fetch_begin. rewrite Hf, Hroot.
  set (p1 := set_fetch_future _ p).
  assert (∃ p2, fold_left react
                  (if update_trigger p then [TriggerReturns (Ok tt)] else [])
                  (_do_fetch_resume wf p1) = p2
                ∧ repo_root p2 = Some R
                ∧ fetch_future p2 = Some (Done (Ok tt))
                ∧ triggered p2
                  = triggered p ++ (if update_trigger p then [session_id p] else [])
                ∧ reaped p2 = reaped p ∧ started p2 = started p)
    as (p2 & -> & Hr2 & Hf2 & Ht2 & Hre2 & Hs2).
  { eexists. split; [reflexivity|].
    unfold _do_fetch_resume. cbn. rewrite Hrun. cbn.
    rewrite bool_decide_eq_true_2 by done.
    destruct (update_trigger p); cbn; by rewrite ?app_nil_r. }
  unfold collect, check_fetch. rewrite Hr2, Hf2. cbn.
  destruct (gather w R); cbn; rewrite lookup_insert_eq; by rewrite Ht2, Hre2, Hs2.
Qed.

End RoundExtras.

(** ** The further properties on concrete repositories *)

Lemma collect_stashes_counts_entries_witness :
  let entries := [(lit "stash@{0}: WIP on main", false);
                  (lit "stash@{1}: On main: x", true)] in
  let w := answering ["stash"; "list"]%string (0%Z, Listing.render entries)
             (quiet_world 0) in
  let w' := answering ["stash"; "list"]%string (1%Z, lit "oops") (quiet_world 0) in
  run w (Some "/r"%string) ["stash"; "list"]%string = Ok (0%Z, Listing.render entries)
  ∧ Forall (fun e => Listing.break_free e.1) entries
  ∧ collect_stashes w (Some "/r"%string) = Ok 2
  ∧ run w' (Some "/r"%string) ["stash"; "list"]%string = Ok (1%Z, lit "oops")
  ∧ collect_stashes w' (Some "/r"%string)
    = Raise (Exception_ (lit "git stash failed: oops")).
Proof.
  intros entries w w'.
  assert (H1 : run w (Some "/r"%string) ["stash"; "list"]%string
               = Ok (0%Z, Listing.render entries)) by reflexivity.
  assert (H2 : Forall (fun e => Listing.break_free e.1) entries)
    by (repeat constructor).
  assert (H3 : run w' (Some "/r"%string) ["stash"; "list"]%string
               = Ok (1%Z, lit "oops")) by reflexivity.
  split; [exact H1|split; [exact H2|split; [|split; [exact H3|]]]].
  - destruct (collect_stashes_counts_entries w (Some "/r"%string) _ _ H1)
      as [_ Hcount].
    exact (Hcount entries eq_refl eq_refl H2).
  - destruct (collect_stashes_counts_entries w' (Some "/r"%string) _ _ H3)
      as [Hfail _].
    apply Hfail. discriminate.
Defined.

Lemma collect_repo_counts_order_witness :
  let entries := [(lit "?? a", false); (lit "M  b", false)] in
  let entries' := [(lit "M  b", true); (lit "?? a", true)] in
  let w := answering status_args (0%Z, Listing.render entries) (quiet_world 0) in
  let w' := answering status_args (0%Z, Listing.render entries') (quiet_world 0) in
  run w (Some "/r"%string) status_args = Ok (0%Z, Listing.render entries)
  ∧ run w' (Some "/r"%string) status_args = Ok (0%Z, Listing.render entries')
  ∧ Forall (fun e => Listing.break_free e.1) entries
  ∧ Forall (fun e => Listing.break_free e.1) entries'
  ∧ entries.*1 ≡ₚ entries'.*1
  ∧ collect_repo_counts w (Some "/r"%string)
    = collect_repo_counts w' (Some "/r"%string).
Proof.
  intros entries entries' w w'.
  assert (H1 : run w (Some "/r"%string) status_args
               = Ok (0%Z, Listing.render entries)) by reflexivity.
  assert (H2 : run w' (Some "/r"%string) status_args
               = Ok (0%Z, Listing.render entries')) by reflexivity.
  assert (H3 : Forall (fun e => Listing.break_free e.1) entries)
    by (repeat constructor).
  assert (H4 : Forall (fun e => Listing.break_free e.1) entries')
    by (repeat constructor).
  assert (H5 : entries.*1 ≡ₚ entries'.*1) by apply perm_swap.
  split; [exact H1|split; [exact H2|split; [exact H3|split; [exact H4|]]]].
  split; [exact H5|].
  exact (collect_repo_counts_order w w' _ _ entries entries' H1 H2 H3 H4 H5).
Defined.

Lemma collect_repo_counts_failure_witness :
  let w := answering status_args (0%Z, lit "?? a" ++ LF ++ LF) (quiet_world 0) in
  run w (Some "/r"%string) status_args = Ok (0%Z, lit "?? a" ++ LF ++ LF)
  ∧ [] ∈ PyStr.splitlines (lit "?? a" ++ LF ++ LF)
  ∧ collect_repo_counts w (Some "/r"%string) = Raise IndexError.
Proof.
  intros w.
  assert (H1 : run w (Some "/r"%string) status_args
               = Ok (0%Z, lit "?? a" ++ LF ++ LF)) by reflexivity.
  assert (H2 : [] ∈ PyStr.splitlines (lit "?? a" ++ LF ++ LF)).
  { apply elem_of_cons. right. apply elem_of_cons. by left. }
  split; [exact H1|split; [exact H2|]].
  destruct (collect_repo_counts_failure w (Some "/r"%string) _ _ H1)
    as (_ & Hidx & _).
  exact (Hidx eq_refl H2).
Defined.

Lemma collect_repo_counts_bounds_witness :
  let w := quiet_world 0 in
  let stdout := lit "?? a" ++ LF ++ lit "?? b" ++ LF ++ lit "A  c" ++ LF in
  let c := {| dirty := true; untracked := 2; modified := 0; staged := 1;
              deleted := 0 |} in
  run w (Some "/r"%string) status_args = Ok (0%Z, stdout)
  ∧ collect_repo_counts w (Some "/r"%string) = Ok c
  ∧ untracked c + modified c + deleted c ≤ 3
  ∧ untracked c + staged c + deleted c ≤ 3.
Proof.
  intros w stdout c.
  assert (H1 : run w (Some "/r"%string) status_args = Ok (0%Z, stdout))
    by reflexivity.
  assert (H2 : collect_repo_counts w (Some "/r"%string) = Ok c) by reflexivity.
  split; [exact H1|split; [exact H2|]].
  destruct (collect_repo_counts_bounds w (Some "/r"%string) stdout c H1 H2)
    as (Ha & Hb & _).
  split; [exact Ha|exact Hb].
Defined.

Lemma collect_repo_counts_unlisted_witness :
  let stdout := lit "R  a -> b" ++ LF ++ lit "UU c" ++ LF in
  let w := answering status_args (0%Z, stdout) (quiet_world 0) in
  run w (Some "/r"%string) status_args = Ok (0%Z, stdout)
  ∧ Forall (fun l => ∃ c rest, l = c :: rest ∧ c ∉ Listing.known_columns)
      (PyStr.splitlines stdout)
  ∧ collect_repo_counts w (Some "/r"%string)
    = Ok {| dirty := true; untracked := 0; modified := 0; staged := 0;
            deleted := 0 |}.
Proof.
  intros stdout w.
  assert (H1 : run w (Some "/r"%string) status_args = Ok (0%Z, stdout))
    by reflexivity.
  assert (H2 : Forall (fun l => ∃ c rest, l = c :: rest ∧ c ∉ Listing.known_columns)
                 (PyStr.splitlines stdout)).
  { repeat constructor; do 2 eexists; (split; [reflexivity|]);
      unfold Listing.known_columns; cbn [map];
      rewrite !not_elem_of_cons; repeat split; try discriminate;
      apply not_elem_of_nil. }
  split; [exact H1|split; [exact H2|]].
  exact (collect_repo_counts_unlisted w (Some "/r"%string) stdout H1 H2).
Defined.

Lemma collect_current_branch_shape_witness :
  collect_current_branch (quiet_world 0) (Some "/r"%string) = Ok (lit "main")
  ∧ (Listing.trimmed (lit "main")
     ∨ ∃ h, lit "main" = lit "[" ++ h ++ lit "]" ∧ Listing.trimmed h).
Proof.
  assert (H1 : collect_current_branch (quiet_world 0) (Some "/r"%string)
               = Ok (lit "main")) by reflexivity.
  split; [exact H1|].
  exact (collect_current_branch_shape (quiet_world 0) (Some "/r"%string) _ H1).
Defined.

Lemma collect_current_branch_blank_name_witness :
  let w := answering ["branch"; "--show-current"]%string (0%Z, LF) (quiet_world 0) in
  run w (Some "/r"%string) ["branch"; "--show-current"]%string = Ok (0%Z, LF)
  ∧ LF ≠ [] ∧ Spec.blank LF
  ∧ collect_current_branch w (Some "/r"%string) = Ok [].
Proof.
  intros w.
  assert (H1 : run w (Some "/r"%string) ["branch"; "--show-current"]%string
               = Ok (0%Z, LF)) by reflexivity.
  assert (H2 : LF ≠ []) by discriminate.
  assert (H3 : Spec.blank LF) by (repeat constructor).
  split; [exact H1|split; [exact H2|split; [exact H3|]]].
  exact (collect_current_branch_blank_name w (Some "/r"%string) LF H1 H2 H3).
Defined.

Lemma collect_counts_zero_exit_witness :
  let w := answering counts_args (0%Z, lit "3 1 4") (quiet_world 0) in
  run w (Some "/r"%string) counts_args = Ok (0%Z, lit "3 1 4")
  ∧ collect_counts w (Some "/r"%string) = Raise ValueError.
Proof.
  intros w.
  assert (H1 : run w (Some "/r"%string) counts_args = Ok (0%Z, lit "3 1 4"))
    by reflexivity.
  split; [exact H1|].
  destruct (collect_counts_zero_exit w (Some "/r"%string) _ _ H1) as [Hzero _].
  exact (Hzero eq_refl).
Defined.

Lemma read_first_line_only_witness :
  let w := with_files
             (<["/r/n"%string := File (lit " 7" ++ [0x0D%N] ++ lit "junk")]> ∅)
             (quiet_world 0) in
  files w !! "/r/n"%string = Some (File (lit " 7" ++ [0x0D%N] ++ lit "junk"))
  ∧ Forall (fun c => c ≠ 0x0A%N ∧ c ≠ 0x0D%N) (lit " 7")
  ∧ _read_first_line_int w "/r/n" = Ok (Some 7%Z).
Proof.
  intros w.
  assert (H1 : files w !! "/r/n"%string
               = Some (File (lit " 7" ++ [0x0D%N] ++ lit "junk"))) by reflexivity.
  assert (H2 : Forall (fun c => c ≠ 0x0A%N ∧ c ≠ 0x0D%N) (lit " 7"))
    by (repeat constructor; discriminate).
  split; [exact H1|split; [exact H2|]].
  rewrite (read_first_line_only w "/r/n" (lit " 7") ([0x0D%N] ++ lit "junk") H1 H2).
  - reflexivity.
  - right. do 2 eexists. split; [reflexivity|by right].
Defined.

Lemma collect_repo_state_range_witness :
  let w := with_files rebasing_files (quiet_world 0) in
  let st := {| state := Some "REBASE-i"%string; step := Some 3%Z;
               total := Some 10%Z |} in
  collect_repo_state w "/r" = Ok st
  ∧ ("REBASE-i"%string ∈ Listing.rebase_states
     ∨ ("REBASE-i"%string ∈ Listing.plain_states
        ∧ step st = None ∧ total st = None)).
Proof.
  intros w st.
  assert (H1 : collect_repo_state w "/r" = Ok st) by reflexivity.
  split; [exact H1|].
  exact (collect_repo_state_range w "/r" st H1).
Defined.

Lemma collect_repo_state_merge_frame_witness :
  let w := with_files rebasing_files (quiet_world 0) in
  let w' := with_files
              (<["/r/.git/MERGE_HEAD"%string := File []]>
                 (<["/r/.git/rebase-apply"%string := Dir]> rebasing_files))
              (quiet_world 9) in
  is_dir (files w) "/r/.git/rebase-merge" = true
  ∧ collect_repo_state w' "/r" = collect_repo_state w "/r"
  ∧ collect_repo_state w' "/r"
    = Ok {| state := Some "REBASE-i"%string; step := Some 3%Z;
            total := Some 10%Z |}.
Proof.
  intros w w'.
  assert (H1 : is_dir (files w) "/r/.git/rebase-merge" = true) by reflexivity.
  assert (H2 : collect_repo_state w' "/r" = collect_repo_state w "/r").
  { apply (collect_repo_state_merge_frame w w' "/r" H1).
    intros f Hf. cbn [path_join] in Hf.
    repeat (apply elem_of_cons in Hf as [->|Hf]; [reflexivity|]).
    by apply elem_of_nil in Hf. }
  split; [exact H1|split; [exact H2|]].
  rewrite H2. reflexivity.
Defined.

Lemma collect_succeeds_iff_witness :
  let w := answering ["stash"; "list"]%string (1%Z, []) (quiet_world 100) in
  let p := watching "/r" None in
  repo_root p = Some "/r"%string
  ∧ is_ok (collect_stashes w (Some "/r"%string)) = false
  ∧ is_ok (collect w p).2 = false.
Proof.
  intros w p.
  assert (H1 : repo_root p = Some "/r"%string) by reflexivity.
  split; [exact H1|split; [reflexivity|]].
  rewrite (collect_succeeds_iff w p "/r" H1). reflexivity.
Defined.

Lemma cycles_while_running_witness :
  let p := watching "/r" (Some (Running (Fetching (Some "/r"%string)))) in
  let ws := [quiet_world 100; quiet_world 200] in
  repo_root p = Some "/r"%string
  ∧ fetch_future p = Some (Running (Fetching (Some "/r"%string)))
  ∧ fetch_future (run_events p (Cycle <$> ws))
    = Some (Running (Fetching (Some "/r"%string)))
  ∧ last_poll (run_events p (Cycle <$> ws)) = last_poll p
  ∧ started (run_events p (Cycle <$> ws)) = started p.
Proof.
  intros p ws.
  assert (H1 : repo_root p = Some "/r"%string) by reflexivity.
  assert (H2 : fetch_future p = Some (Running (Fetching (Some "/r"%string))))
    by reflexivity.
  split; [exact H1|split; [exact H2|]].
  destruct (cycles_while_running p "/r" _ ws H1 H2) as (Hf & Hl & Hs & _).
  split; [exact Hf|split; [exact Hl|exact Hs]].
Defined.

Lemma registry_keeps_keys_witness :
  let p := (collect (quiet_world 5) (watching "/r" None)).1 in
  let es := [SetRepoRoot (Some "/x"%string); Cycle (quiet_world 200);
             FetchBegins; FetchExits (quiet_world 300)] in
  is_Some (last_poll p !! Some "/r"%string)
  ∧ is_Some (last_poll (run_events p es) !! Some "/r"%string).
Proof.
  intros p es.
  assert (H1 : is_Some (last_poll p !! Some "/r"%string))
    by (exists 0%Z; reflexivity).
  split; [exact H1|].
  exact (registry_keeps_keys p es (Some "/r"%string) H1).
Defined.

Lemma collect_idle_registry_witness :
  let w := quiet_world 100 in
  let p := watching "/r" None in
  repo_root p = Some "/r"%string
  ∧ fetch_future p = None
  ∧ run w (Some "/r"%string) ["remote"; "show"]%string = Ok (0%Z, lit "origin" ++ LF)
  ∧ PyStr.strip (lit "origin" ++ LF) ≠ []
  ∧ fetch_future (collect w p).1 = Some (Running Created)
  ∧ last_poll (collect w p).1 !! Some "/r"%string = Some 0%Z.
Proof.
  intros w p.
  assert (H1 : repo_root p = Some "/r"%string) by reflexivity.
  assert (H2 : fetch_future p = None) by reflexivity.
  assert (H3 : run w (Some "/r"%string) ["remote"; "show"]%string
               = Ok (0%Z, lit "origin" ++ LF)) by reflexivity.
  assert (H4 : PyStr.strip (lit "origin" ++ LF) ≠ []) by (vm_compute; discriminate).
  split; [exact H1|split; [exact H2|split; [exact H3|split; [exact H4|]]]].
  split; [reflexivity|].
  destruct (collect_idle_registry w p "/r" _ _ H1 H2 H3) as [_ Hstamp].
  destruct (Hstamp H4) as [Hroot _]. exact Hroot.
Defined.

Lemma failed_refresh_sticks_witness :
  let p := watching "/r" (Some (Done (Raise (Foreign "OSError")))) in
  let ws := [quiet_world 100; quiet_world 200; quiet_world 300] in
  repo_root p = Some "/r"%string
  ∧ fetch_future p = Some (Done (Raise (Foreign "OSError")))
  ∧ run_events p (Cycle <$> ws) = p
  ∧ Forall (fun w => collect w p = (p, Raise (Foreign "OSError"))) ws.
Proof.
  intros p ws.
  assert (H1 : repo_root p = Some "/r"%string) by reflexivity.
  assert (H2 : fetch_future p = Some (Done (Raise (Foreign "OSError"))))
    by reflexivity.
  split; [exact H1|split; [exact H2|]].
  exact (failed_refresh_sticks p "/r" _ ws H1 H2).
Defined.

Lemma refresh_round_witness :
  let p := watching "/r" (Some (Running Created)) in
  let es := [FetchBegins; FetchExits (quiet_world 50); TriggerReturns (Ok tt);
             Cycle (quiet_world 60)] in
  repo_root p = Some "/r"%string
  ∧ fetch_future p = Some (Running Created)
  ∧ run (quiet_world 50) (Some "/r"%string) ["fetch"; "--quiet"]%string
    = Ok (0%Z, [])
  ∧ triggered (run_events p es) = ["s1"%string]
  ∧ last_poll (run_events p es) !! Some "/r"%string = Some 60%Z
  ∧ fetch_future (run_events p es) = None.
Proof.
  intros p es.
  assert (H1 : repo_root p = Some "/r"%string) by reflexivity.
  assert (H2 : fetch_future p = Some (Running Created)) by reflexivity.
  assert (H3 : run (quiet_world 50) (Some "/r"%string) ["fetch"; "--quiet"]%string
               = Ok (0%Z, [])) by reflexivity.
  split; [exact H1|split; [exact H2|split; [exact H3|]]].
  destruct (refresh_round p "/r" (quiet_world 50) (quiet_world 60) _ H1 H2 H3)
    as (Ht & Hl & Hf & _).
  split; [exact Ht|split; [exact Hl|exact Hf]].
Defined.
